(** * GPT-Recipe-Scraper: a shallow embedding of [crawler.py]

    The script crawls a recipe site, asks a text-generation service for
    instruction/input/output triples and appends them to a JSONL file.
    This development embeds the class [WebsiteScraperAlpacaFormatter]:

    - Python [str] values are lists of 8-bit characters ([list ascii]);
      the built-in string methods the script calls ([startswith], [in],
      [lower], [strip], [split], [replace], slicing) are defined on them;
    - the object's attributes and the process's effects (printed lines,
      files, HTTP requests, generation requests, sleeping) live in a
      [world] record that is threaded through a state-and-exception monad;
    - what the libraries decide (the network, the HTML parser, URL joining,
      the generation service) is a parameter of the development. *)

From Stdlib Require Import Ascii String ZArith Lia DecimalString.
From stdpp Require Import base tactics option list sets gmap strings.

Set Default Proof Using "Type".

(** ** Python strings *)

Abbreviation str := (list ascii).

(** String literals are written as Rocq strings and read as [str]. *)
Coercion list_ascii_of_string : string >-> list.

Module Py.

(** [s.startswith(p)] *)
Definition startswith (p s : str) : bool := bool_decide (p `prefix_of` s).

(** [sub in s] *)
Fixpoint contains (sub s : str) : bool :=
  startswith sub s ||
  match s with
  | [] => false
  | _ :: s' => contains sub s'
  end.

(** [s.find(sub)], with [None] for Python's -1 *)
Fixpoint find (sub s : str) : option nat :=
  if startswith sub s then Some 0
  else match s with
       | [] => None
       | _ :: s' => S <$> find sub s'
       end.

(** Number of positions of [s] at which [sub] occurs. *)
Fixpoint occurrences (sub s : str) : nat :=
  (if startswith sub s then 1 else 0) +
  match s with
  | [] => 0
  | _ :: s' => occurrences sub s'
  end.

(** [s.split(sep)] for a non-empty [sep] (Python raises [ValueError] on an
    empty one; the script only splits on literal labels).  The scan goes
    left to right and resumes after each separator found; every round
    consumes at least one character, so [length s] rounds are enough. *)
Fixpoint split_rounds (n : nat) (sep s : str) : list str :=
  match n with
  | 0 => [s]
  | S n' =>
      match find sep s with
      | None => [s]
      | Some i => take i s :: split_rounds n' sep (drop (i + length sep) s)
      end
  end.

Definition split (sep s : str) : list str := split_rounds (length s) sep s.

(** [new.join(pieces)] *)
Fixpoint join (new : str) (pieces : list str) : str :=
  match pieces with
  | [] => []
  | [p] => p
  | p :: ps => p ++ new ++ join new ps
  end.

(** [s.replace(old, new)] for a non-empty [old]: the pieces between the
    occurrences found by the same left-to-right scan, glued with [new]. *)
Definition replace (old new s : str) : str := join new (split old s).

(** [c.isspace()] on the code points below 256. *)
Definition isspace (c : ascii) : bool :=
  let n := N_of_ascii c in
  ((9 <=? n) && (n <=? 13) || (28 <=? n) && (n <=? 32)
   || (n =? 133) || (n =? 160))%N.

Fixpoint lstrip (s : str) : str :=
  match s with
  | [] => []
  | c :: s' => if isspace c then lstrip s' else s
  end.

Definition rstrip (s : str) : str := reverse (lstrip (reverse s)).

(** [s.strip()] *)
Definition strip (s : str) : str := rstrip (lstrip s).

(** [c.lower()] on the code points below 256: the ASCII capitals and the
    Latin-1 capitals U+00C0..U+00DE (except the multiplication sign
    U+00D7) move up by 32. *)
Definition lower_char (c : ascii) : ascii :=
  let n := N_of_ascii c in
  if ((65 <=? n) && (n <=? 90)
      || (192 <=? n) && (n <=? 222) && negb (n =? 215))%N
  then ascii_of_N (n + 32) else c.

(** [s.lower()] *)
Definition lower (s : str) : str := lower_char <$> s.

(** [str(n)] for a non-negative integer *)
Definition str_of_nat (n : nat) : str :=
  list_ascii_of_string (NilEmpty.string_of_uint (Nat.to_uint n)).

End Py.

(** ** Exceptions, the world, and the monad of the script *)

(** The exception classes the script distinguishes: [except
    requests.RequestException] catches the first two, [except Exception]
    catches all of them. *)
Inductive exn :=
| ConnectionError (msg : str)       (* requests: the request itself failed *)
| HTTPError (msg : str)             (* requests: raised by raise_for_status *)
| AttributeError (msg : str)
| APIError (msg : str).             (* openai: the generation call failed *)

Definition is_RequestException (e : exn) : bool :=
  match e with
  | ConnectionError _ | HTTPError _ => true
  | _ => false
  end.

Definition is_Exception (e : exn) : bool := true.

(** [str(e)] *)
Definition exn_str (e : exn) : str :=
  match e with
  | ConnectionError m | HTTPError m | AttributeError m | APIError m => m
  end.

(** What [requests.get] hands back: an exception, or a response of which
    the script reads the status (through [raise_for_status]) and the text.
    The exception is one of class [requests.RequestException] (connection
    failure, timeout, a URL that requests refuses), with its message; a
    call that raises anything else is outside this embedding. *)
Record response := { status_code : Z; text : str }.

Inductive get_result :=
| GetRaises (msg : str)
| GetReturns (r : response).

(** One message of a chat request, and the request itself. *)
Record message := { role : str; content : str }.
Record chat_request := { model : str; messages : list message }.

(** What [client.chat.completions.create] hands back: an exception, or a
    completion whose [choices[0].message.content] is a string or [None]. *)
Inductive chat_result :=
| ChatRaises (msg : str)
| ChatReturns (reply : option str).

(** The Alpaca-style record built by the script. *)
Record pair := { instruction : str; input : str; output : str }.

(** The attributes of the scraper object ([base_url], [visited_urls], [url],
    the last one unset until the orchestration loop assigns it) and the
    observable effects of the process. *)
Record world := {
  base_url : str;
  visited_urls : gset str;
  url : option str;
  stdout : list str;            (* lines printed, oldest first *)
  files : gmap str str;         (* file name, as written, to content *)
  makedirs_log : list str;      (* arguments of os.makedirs, oldest first *)
  http_log : list str;          (* URLs requested, oldest first *)
  chat_log : list chat_request; (* generation requests, oldest first *)
  slept : Z                     (* seconds spent in time.sleep *)
}.

Definition set_url (u : str) (w : world) : world :=
  {| base_url := base_url w; visited_urls := visited_urls w; url := Some u;
     stdout := stdout w; files := files w; makedirs_log := makedirs_log w;
     http_log := http_log w; chat_log := chat_log w; slept := slept w |}.

Definition set_visited_urls (v : gset str) (w : world) : world :=
  {| base_url := base_url w; visited_urls := v; url := url w;
     stdout := stdout w; files := files w; makedirs_log := makedirs_log w;
     http_log := http_log w; chat_log := chat_log w; slept := slept w |}.

Definition set_stdout (o : list str) (w : world) : world :=
  {| base_url := base_url w; visited_urls := visited_urls w; url := url w;
     stdout := o; files := files w; makedirs_log := makedirs_log w;
     http_log := http_log w; chat_log := chat_log w; slept := slept w |}.

Definition set_files (f : gmap str str) (w : world) : world :=
  {| base_url := base_url w; visited_urls := visited_urls w; url := url w;
     stdout := stdout w; files := f; makedirs_log := makedirs_log w;
     http_log := http_log w; chat_log := chat_log w; slept := slept w |}.

Definition set_makedirs_log (l : list str) (w : world) : world :=
  {| base_url := base_url w; visited_urls := visited_urls w; url := url w;
     stdout := stdout w; files := files w; makedirs_log := l;
     http_log := http_log w; chat_log := chat_log w; slept := slept w |}.

Definition set_http_log (l : list str) (w : world) : world :=
  {| base_url := base_url w; visited_urls := visited_urls w; url := url w;
     stdout := stdout w; files := files w; makedirs_log := makedirs_log w;
     http_log := l; chat_log := chat_log w; slept := slept w |}.

Definition set_chat_log (l : list chat_request) (w : world) : world :=
  {| base_url := base_url w; visited_urls := visited_urls w; url := url w;
     stdout := stdout w; files := files w; makedirs_log := makedirs_log w;
     http_log := http_log w; chat_log := l; slept := slept w |}.

Definition set_slept (z : Z) (w : world) : world :=
  {| base_url := base_url w; visited_urls := visited_urls w; url := url w;
     stdout := stdout w; files := files w; makedirs_log := makedirs_log w;
     http_log := http_log w; chat_log := chat_log w; slept := z |}.

(** [__init__]: the attributes of a fresh scraper, in a process that has
    printed and requested nothing yet and sees the files [fs]. *)
Definition init (base : str) (fs : gmap str str) : world :=
  {| base_url := base; visited_urls := ∅; url := None;
     stdout := []; files := fs; makedirs_log := [];
     http_log := []; chat_log := []; slept := 0 |}.

(** A computation returns a value or raises, and changes the world either
    way. *)
Inductive outcome (A : Type) :=
| Returns (a : A)
| Raises (e : exn).
Arguments Returns {A} a.
Arguments Raises {A} e.

Definition M (A : Type) : Type := world → outcome A * world.

Global Instance M_ret : MRet M := λ A a w, (Returns a, w).
Global Instance M_bind : MBind M := λ A B f m w,
  match m w with
  | (Returns a, w') => f a w'
  | (Raises e, w') => (Raises e, w')
  end.

Definition raise {A} (e : exn) : M A := λ w, (Raises e, w).
Definition get_world : M world := λ w, (Returns w, w).
Definition modify (f : world → world) : M unit := λ w, (Returns (), f w).

(** [try: body except cls as e: handler(e)], where [catches] tells which
    exceptions belong to [cls]. *)
Definition try_except {A} (body : M A) (catches : exn → bool)
    (handler : exn → M A) : M A := λ w,
  match body w with
  | (Returns a, w') => (Returns a, w')
  | (Raises e, w') => if catches e then handler e w' else (Raises e, w')
  end.

(** [for x in xs: body(x)] *)
Fixpoint for_each {A} (xs : list A) (body : A → M unit) : M unit :=
  match xs with
  | [] => mret ()
  | x :: xs' => body x ;; for_each xs' body
  end.

(** [print(line)] *)
Definition print (line : str) : M unit :=
  modify (λ w, set_stdout (stdout w ++ [line]) w).

(** ** Library code the script relies on *)

(** [os.path.dirname] of posixpath: everything up to the last slash, with
    trailing slashes removed unless the head consists of slashes only. *)
Definition is_slash (c : ascii) : bool := Ascii.eqb c "/".

Fixpoint drop_until_slash (s : str) : str :=
  match s with
  | [] => []
  | c :: s' => if is_slash c then s else drop_until_slash s'
  end.

Fixpoint drop_slashes (s : str) : str :=
  match s with
  | [] => []
  | c :: s' => if is_slash c then drop_slashes s' else s
  end.

Definition dirname (p : str) : str :=
  let head := reverse (drop_until_slash (reverse p)) in
  if forallb is_slash head then head
  else reverse (drop_slashes (reverse head)).

Definition DQUOTE : ascii := "034"%char.

(** The two hexadecimal digits of a [\u00XX] escape are lowercase. *)
Definition hex_digit (n : N) : ascii :=
  if (n <? 10)%N then ascii_of_N (48 + n) else ascii_of_N (87 + n).

(** [json.dumps] of a string, with the default [ensure_ascii=True]: quote
    and backslash are escaped, the control characters with a short escape
    use it, and every other character outside the printable ASCII range
    becomes a [\u00XX] escape. *)
Definition json_escape_char (c : ascii) : str :=
  let n := N_of_ascii c in
  if (n =? 34)%N then ["\"%char; DQUOTE]
  else if (n =? 92)%N then ["\"; "\"]%char
  else if (n =? 10)%N then ["\"; "n"]%char
  else if (n =? 13)%N then ["\"; "r"]%char
  else if (n =? 9)%N then ["\"; "t"]%char
  else if (n =? 8)%N then ["\"; "b"]%char
  else if (n =? 12)%N then ["\"; "f"]%char
  else if ((32 <=? n) && (n <=? 126))%N then [c]
  else ["\"; "u"; "0"; "0"; hex_digit (n / 16); hex_digit (n mod 16)]%char.

Definition json_dumps_str (s : str) : str :=
  [DQUOTE] ++ mbind json_escape_char s ++ [DQUOTE].

(** [json.dumps(pair)] for the three-key dictionary the script builds, keys
    in insertion order, with the default separators. *)
Definition json_dumps (p : pair) : str :=
  "{" ++ json_dumps_str "instruction" ++ ": " ++ json_dumps_str (instruction p)
  ++ ", " ++ json_dumps_str "input" ++ ": " ++ json_dumps_str (input p)
  ++ ", " ++ json_dumps_str "output" ++ ": " ++ json_dumps_str (output p)
  ++ "}".

Definition LF : ascii := "010"%char.
Definition CR : ascii := "013"%char.

(** [sum(1 for _ in f)] on a file opened for reading in text mode: the
    number of lines of the content, where a line ends at LF, CR or CR LF
    (universal newlines) and a last line without terminator counts when it
    is not empty.  [pending] tells whether characters of an unfinished line
    have been read. *)
Fixpoint count_lines_from (pending : bool) (s : str) : nat :=
  match s with
  | [] => if pending then 1 else 0
  | c :: s' =>
      if Ascii.eqb c LF then S (count_lines_from false s')
      else if Ascii.eqb c CR then
        match s' with
        | c' :: s'' =>
            if Ascii.eqb c' LF then S (count_lines_from false s'')
            else S (count_lines_from false s')
        | [] => 1
        end
      else count_lines_from true s'
  end.

Definition count_lines (s : str) : nat := count_lines_from false s.

(** ** The methods of [WebsiteScraperAlpacaFormatter] *)

Section Scraper.

(** What the libraries and the outside world decide.  Each request is
    answered from the history of the earlier ones, so the same URL or the
    same prompt may be answered differently each time. *)
Variable requests_get : list str → str → get_result.
Variable http_error_msg : response → str.
(** [link['href']] for every [link] of [soup.find_all('a', href=True)], in
    document order, for the page with the given text. *)
Variable soup_hrefs : str → list str.
(** [soup.get_text(separator=' ', strip=True)] *)
Variable soup_get_text : str → str.
(** [requests.compat.urljoin], on the references it resolves; a reference
    on which it raises is outside this embedding. *)
Variable urljoin : str → str → str.
Variable chat_completions_create : list chat_request → chat_request → chat_result.

(** [requests.get(url)] *)
Definition get (u : str) : M response := λ w,
  let w' := set_http_log (http_log w ++ [u]) w in
  match requests_get (http_log w) u with
  | GetRaises msg => (Raises (ConnectionError msg), w')
  | GetReturns r => (Returns r, w')
  end.

(** [response.raise_for_status()]: the client and server error statuses
    raise. *)
Definition raise_for_status (r : response) : M unit :=
  if ((400 <=? status_code r) && (status_code r <? 600))%Z
  then raise (HTTPError (http_error_msg r))
  else mret ().

(** [self.client.chat.completions.create(model=..., messages=...)] *)
Definition create (req : chat_request) : M (option str) := λ w,
  let w' := set_chat_log (chat_log w ++ [req]) w in
  match chat_completions_create (chat_log w) req with
  | ChatRaises msg => (Raises (APIError msg), w')
  | ChatReturns reply => (Returns reply, w')
  end.

(** *** find_recipe_links *)

Definition recipe_patterns : list str :=
  [ "/recipe/" : str; "/recipes/" : str;
    "recipe-" : str; "recipes-" : str;
    "cooking/" : str; "food/" : str ].

(** Convert relative URLs to absolute. *)
Definition absolute (u href : str) : str :=
  if negb (Py.startswith "http://" href || Py.startswith "https://" href)
  then urljoin u href
  else href.

(** The condition under which a link is kept. *)
Definition keeps (self : world) (href : str) : bool :=
  existsb (λ pattern, Py.contains pattern (Py.lower href)) recipe_patterns
  && Py.contains (base_url self) href
  && negb (bool_decide (href ∈ visited_urls self)).

(** The [for link in soup.find_all('a', href=True)] loop, with its
    [break]; [recipe_links] is the set built so far. *)
Fixpoint scan_links (self : world) (u : str) (max_links : Z)
    (hrefs : list str) (recipe_links : gset str) : gset str :=
  match hrefs with
  | [] => recipe_links
  | href :: rest =>
      let href := absolute u href in
      if keeps self href then
        let recipe_links := recipe_links ∪ {[ href ]} in
        if (Z.of_nat (size recipe_links) >=? max_links)%Z
        then recipe_links
        else scan_links self u max_links rest recipe_links
      else scan_links self u max_links rest recipe_links
  end.

Definition find_recipe_links (u : str) (max_links : Z) : M (list str) :=
  let recipe_links : gset str := ∅ in
  recipe_links ← try_except
    (response ← get u;
     raise_for_status response;;
     self ← get_world;
     mret (scan_links self u max_links (soup_hrefs (text response))
             recipe_links))
    is_RequestException
    (λ e, print ("Error finding recipe links: " ++ exn_str e);;
          mret recipe_links);
  mret (elements recipe_links).

(** *** scrape_website *)

Definition scrape_website : M (option str) :=
  try_except
    (self ← get_world;
     u ← match url self with
         | Some u => mret u
         | None => raise (AttributeError
             "'WebsiteScraperAlpacaFormatter' object has no attribute 'url'")
         end;
     response ← get u;
     raise_for_status response;;
     mret (Some (soup_get_text (text response))))
    is_RequestException
    (λ e, print ("Error scraping website: " ++ exn_str e);;
          mret None).

(** *** generate_instruction_pairs *)

Definition unlines (ls : list string) : str :=
  Py.join [LF] (list_ascii_of_string <$> ls).

Definition system_prompt : str := unlines
  [ EmptyString;
    "        You are a culinary assistant that creates detailed instruction-input-output pairs for italian recipes.";
    "        For each pair:";
    "        1. Instruction should be a clear generalization of the task (like a system prompt)";
    "        2. Input should contain relevant context or specific questions";
    "        3. Output should be detailed, including ingredients, steps, or explanations in markdown format";
    "        ";
    "        Make each pair unique and focus on different aspects (ingredients, preparation, cooking tips, variations, etc.)";
    "        " ].

(** The f-string of the user message, before and after the recipe text. *)
Definition user_prefix : str := unlines
  [ EmptyString;
    "                        Create a unique instruction-input-output pair based on this recipe: " ].

Definition user_suffix : str := unlines
  [ EmptyString;
    "                        ";
    "                        Format as:";
    "                        INSTRUCTION: A generalised overview of the instructions for the recipe";
    "                        INPUT: [Context or specific question]";
    "                        OUTPUT: [Detailed response in markdown format]";
    "                        ";
    "                        Make sure the output includes proper markdown formatting with lists, headers, or emphasis where appropriate.";
    "                        " ].

Definition user_message (text_content : str) : str :=
  user_prefix ++ take 2000 text_content ++ user_suffix.

Definition request_for (text_content : str) : chat_request :=
  {| model := "gpt-3.5-turbo";
     messages :=
       [ {| role := "system"; content := system_prompt |};
         {| role := "user"; content := user_message text_content |} ] |}.

(** Extract and parse the generated content: the pair to append, if the
    reply has the expected shape. *)
Definition parse_reply (generated_content : str) : option pair :=
  match Py.split "INPUT:" generated_content with
  | [part0; part1] =>
      let instruction := Py.strip (Py.replace "INSTRUCTION:" [] part0) in
      match Py.split "OUTPUT:" part1 with
      | [input_text; output_text] =>
          Some {| instruction := instruction;
                  input := Py.strip input_text;
                  output := Py.strip output_text |}
      | _ => None
      end
  | _ => None
  end.

(** One round of the [for _ in range(num_pairs)] loop: the body of the
    [try] and its [except Exception]. *)
Definition attempt (text_content : str) (instruction_pairs : list pair)
    : M (list pair) :=
  try_except
    (reply ← create (request_for text_content);
     generated_content ←
       match reply with
       | Some c => mret c
       | None => raise (AttributeError
           "'NoneType' object has no attribute 'split'")
       end;
     mret (match parse_reply generated_content with
           | Some p => instruction_pairs ++ [p]
           | None => instruction_pairs
           end))
    is_Exception
    (λ e, print ("Error generating instruction pair: " ++ exn_str e);;
          mret instruction_pairs).

Fixpoint attempts (n : nat) (text_content : str)
    (instruction_pairs : list pair) : M (list pair) :=
  match n with
  | 0 => mret instruction_pairs
  | S n' =>
      instruction_pairs ← attempt text_content instruction_pairs;
      attempts n' text_content instruction_pairs
  end.

Definition generate_instruction_pairs (text_content : str) (num_pairs : Z)
    : M (list pair) :=
  attempts (Z.to_nat num_pairs) text_content [].

(** *** save_to_jsonl *)

Definition save_to_jsonl (instruction_pairs : list pair) (filename : str)
    : M unit :=
  let d := dirname filename in
  modify (λ w, set_makedirs_log
                 (makedirs_log w ++ [match d with [] => "." : str | _ => d end])
                 w);;
  w ← get_world;
  let existing_count :=
    match files w !! filename with
    | Some f => count_lines f
    | None => 0
    end in
  modify (λ w, set_files
                 (<[ filename :=
                      default [] (files w !! filename)
                      ++ mbind (λ p, json_dumps p ++ [LF]) instruction_pairs ]>
                    (files w))
                 w);;
  print ("Added " ++ Py.str_of_nat (length instruction_pairs)
         ++ " instruction pairs to " ++ filename
         ++ " (now contains "
         ++ Py.str_of_nat (existing_count + length instruction_pairs)
         ++ " total entries)").

(** *** process_multiple_recipes *)

(** The body of the [for recipe_url in recipe_links] loop. *)
Definition process_recipe (num_pairs_per_recipe : Z) (output_filename : str)
    (recipe_url : str) : M unit :=
  print ("Processing recipe: " ++ recipe_url);;
  modify (set_url recipe_url);;
  modify (λ w, set_visited_urls (visited_urls w ∪ {[ recipe_url ]}) w);;
  text_content ← scrape_website;
  match text_content with
  | Some ((_ :: _) as text_content) =>
      instruction_pairs ←
        generate_instruction_pairs text_content num_pairs_per_recipe;
      save_to_jsonl instruction_pairs output_filename
  | _ => mret ()
  end;;
  modify (λ w, set_slept (slept w + 2) w).

Definition process_multiple_recipes (num_pairs_per_recipe max_recipes : Z)
    (output_filename : str) : M unit :=
  self ← get_world;
  recipe_links ← find_recipe_links (base_url self) max_recipes;
  for_each recipe_links (process_recipe num_pairs_per_recipe output_filename).

(** *** main *)

(** How [main] ends: with the [ValueError] it raises when the credential is
    not set, or with the run of [process_multiple_recipes] on a fresh
    scraper, in a process that sees the files [fs]. *)
Inductive main_result :=
| MainValueError (msg : str)
| MainRan (run : outcome unit * world).

Definition main (getenv : str → option str) (fs : gmap str str)
    : main_result :=
  match getenv "OPENAI_API_KEY" with
  | Some (_ :: _) =>
      let base_url : str :=
        "https://www.bbcgoodfood.com/recipes/carbonara-arancini" in
      MainRan (process_multiple_recipes 5 10 "website_alpaca_dataset.jsonl"
                 (init base_url fs))
  | _ => MainValueError "Please set the OPENAI_API_KEY environment variable"
  end.

End Scraper.


(** ** Notions used to state the properties *)

(** A label is unbordered when none of its proper non-empty suffixes is one
    of its prefixes: two occurrences of it in a text cannot overlap, so the
    positions at which it occurs are the ones the left-to-right scan of
    [split] and [replace] finds. *)
Definition unbordered (L : str) : Prop :=
  ∀ k, 0 < k < length L → ¬ drop k L `prefix_of` L.

Definition unborderedb (L : str) : bool :=
  forallb (λ k, negb (Py.startswith (drop k L) L)) (seq 1 (length L - 1)).

(** No whitespace at either end. *)
Definition trimmed (s : str) : Prop :=
  (∀ c, head s = Some c → Py.isspace c = false)
  ∧ (∀ c, last s = Some c → Py.isspace c = false).

(** The reply has its [OUTPUT:] label somewhere after its [INPUT:] label,
    around the three given texts. *)
Definition labelled (a b c : str) : str :=
  a ++ "INPUT:" ++ b ++ "OUTPUT:" ++ c.

(** What a leading-label strip would keep of the text before [INPUT:]: the
    trimmed text, without the [INSTRUCTION:] label it starts with. *)
Definition without_leading_label (body : str) : str :=
  let s := Py.strip body in
  if Py.startswith "INSTRUCTION:" s
  then Py.strip (drop (length ("INSTRUCTION:" : str)) s)
  else s.

(** The character ends a line. *)
Definition is_newline (c : ascii) : bool := Ascii.eqb c LF || Ascii.eqb c CR.

(** The text holds no line terminator. *)
Definition one_line (s : str) : bool := forallb (λ c, negb (is_newline c)) s.

(** The file content is empty or ends with a line terminator. *)
Definition ends_line (s : str) : Prop :=
  match last s with
  | None => True
  | Some c => c = LF ∨ c = CR
  end.

(** The pairs an answer of the generation service contributes. *)
Definition yield (r : chat_result) : list pair :=
  match r with
  | ChatReturns (Some c) => option_list (parse_reply c)
  | _ => []
  end.

(** The status line [save_to_jsonl] prints for [k] pairs appended, with the
    total it reports. *)
Definition status_line (k : nat) (filename : str) (total : nat) : str :=
  "Added " ++ Py.str_of_nat k ++ " instruction pairs to " ++ filename
  ++ " (now contains " ++ Py.str_of_nat total ++ " total entries)".

(** The line a round of [generate_instruction_pairs] prints for an answer:
    one for an exception or a completion without content, none for a
    completion with content, whatever its shape. *)
Definition complaint (r : chat_result) : list str :=
  match r with
  | ChatRaises msg => ["Error generating instruction pair: " ++ msg]
  | ChatReturns None =>
      ["Error generating instruction pair: "
       ++ "'NoneType' object has no attribute 'split'"]
  | ChatReturns (Some _) => []
  end.

(** Reading back what [json_dumps_str] writes after its opening quote: the
    characters up to the closing quote, with the escapes undone, and the
    text after that quote. *)
Definition hex_value (c : ascii) : N :=
  let n := N_of_ascii c in
  if (n <? 58)%N then (n - 48)%N else (n - 87)%N.

Definition read_more (c : ascii) (r : option (str * str)) : option (str * str) :=
  match r with
  | Some (s, rest) => Some (c :: s, rest)
  | None => None
  end.

Fixpoint json_read_str (s : str) : option (str * str) :=
  match s with
  | [] => None
  | c :: s1 =>
      if Ascii.eqb c DQUOTE then Some ([], s1)
      else if Ascii.eqb c "\" then
        match s1 with
        | e :: s2 =>
            if Ascii.eqb e "u" then
              match s2 with
              | _ :: _ :: h1 :: h0 :: s6 =>
                  read_more (ascii_of_N (16 * hex_value h1 + hex_value h0))
                    (json_read_str s6)
              | _ => None
              end
            else if Ascii.eqb e "n" then read_more LF (json_read_str s2)
            else if Ascii.eqb e "r" then read_more CR (json_read_str s2)
            else if Ascii.eqb e "t" then read_more "009" (json_read_str s2)
            else if Ascii.eqb e "b" then read_more "008" (json_read_str s2)
            else if Ascii.eqb e "f" then read_more "012" (json_read_str s2)
            else read_more e (json_read_str s2)
        | [] => None
        end
      else read_more c (json_read_str s1)
  end.

(** ** Concrete surroundings for the examples *)

Module Example.

(** A site that answers every request with status 200 and the same page. *)
Definition serves (page : str) : list str → str → get_result :=
  λ _ _, GetReturns {| status_code := 200; text := page |}.

(** A site that cannot be reached, and one that answers 404. *)
Definition unreachable : list str → str → get_result :=
  λ _ _, GetRaises "Connection refused".

Definition not_found : list str → str → get_result :=
  λ _ _, GetReturns {| status_code := 404; text := [] |}.

Definition error_msg (r : response) : str := "Client Error".

(** A page on which the parser finds the given anchors. *)
Definition anchors (hrefs : list str) : str → list str := λ _, hrefs.

(** URL joining for the references used in the examples: an absolute path
    replaces the path of the base URL. *)
Fixpoint origin_from (slashes : nat) (u : str) : str :=
  match u with
  | [] => []
  | c :: u' =>
      if is_slash c then
        match slashes with
        | 0 => []
        | S n => c :: origin_from n u'
        end
      else c :: origin_from slashes u'
  end.

Definition join_path (base ref : str) : str := origin_from 2 base ++ ref.

(** A generation service that gives its answers in turn and fails once
    they are used up. *)
Definition answers (l : list chat_result)
    : list chat_request → chat_request → chat_result :=
  λ log _, default (ChatRaises "Rate limit reached") (l !! length log).

End Example.


(** ** Facts about the string methods *)

Section Strings.

Implicit Types (L sep sub p s t a b : str).

Lemma startswith_true p s : Py.startswith p s = true ↔ p `prefix_of` s.
Proof. apply bool_decide_eq_true. Qed.

Lemma startswith_false p s : Py.startswith p s = false ↔ ¬ p `prefix_of` s.
Proof. apply bool_decide_eq_false. Qed.

Lemma startswith_app p t : Py.startswith p (p ++ t) = true.
Proof. apply startswith_true, prefix_app_r. done. Qed.

(** Of two prefixes of a text, the shorter is a prefix of the longer. *)
Lemma prefix_of_shorter p1 p2 s :
  p1 `prefix_of` s → p2 `prefix_of` s → length p1 ≤ length p2 →
  p1 `prefix_of` p2.
Proof.
  intros H1 H2 Hlen.
  destruct (prefix_weak_total _ _ _ H1 H2) as [|H]; [done|].
  pose proof (prefix_length _ _ H).
  assert (p2 = p1) as -> by (apply prefix_length_eq; [done|lia]).
  done.
Qed.

Lemma unborderedb_sound L : unborderedb L = true → unbordered L.
Proof.
  unfold unborderedb, unbordered. rewrite forallb_forall.
  intros H k Hk Hpre. specialize (H k).
  rewrite (proj2 (startswith_true _ _) Hpre) in H.
  discriminate H. apply in_seq. lia.
Qed.

(** A text that starts inside the label cannot start with the label. *)
Lemma unbordered_inside L b k :
  unbordered L → 0 < k < length L → ¬ L `prefix_of` (drop k L ++ b).
Proof.
  intros HL Hk Hpre. apply (HL k Hk).
  apply (prefix_of_shorter _ _ (drop k L ++ b)); [by apply prefix_app_r|done|].
  rewrite length_drop. lia.
Qed.

(** The label cannot start in a non-empty text before one of its occurrences
    and reach into that occurrence. *)
Lemma unbordered_straddle L a b :
  unbordered L → a ≠ [] → L `prefix_of` (a ++ L ++ b) → L `prefix_of` a.
Proof.
  intros HL Ha Hpre.
  destruct (decide (length L ≤ length a)) as [Hle|Hgt].
  { apply (prefix_of_shorter _ _ (a ++ L ++ b)); [done|by apply prefix_app_r|done]. }
  exfalso.
  assert (a `prefix_of` L) as [t Ht].
  { apply (prefix_of_shorter _ _ (a ++ L ++ b)); [by apply prefix_app_r|done|lia]. }
  assert (0 < length a) by (destruct a; [done|simpl; lia]).
  assert (length a < length L) by lia.
  apply (HL (length a)); [lia|].
  assert (drop (length a) L = t) as ->.
  { rewrite Ht. by rewrite drop_app_length. }
  rewrite Ht in Hpre at 1. apply prefix_app_inv in Hpre.
  apply (prefix_of_shorter _ _ (L ++ b)); [done|by apply prefix_app_r|].
  rewrite Ht, length_app. lia.
Qed.

(** *** find and occurrences *)

Lemma find_startswith sub s :
  Py.startswith sub s = true → Py.find sub s = Some 0.
Proof. intros H. destruct s; simpl; by rewrite H. Qed.

Lemma find_None_occurrences sub s :
  Py.find sub s = None ↔ Py.occurrences sub s = 0.
Proof.
  induction s as [|c s IH]; simpl.
  - destruct (Py.startswith sub []); simpl; split; (done || lia).
  - destruct (Py.startswith sub (c :: s)); simpl; [split; (done || lia)|].
    rewrite <- IH. destruct (Py.find sub s); simpl; split; done.
Qed.

Lemma find_Some_occurrences sub s i :
  Py.find sub s = Some i → Py.occurrences sub s = Py.occurrences sub (drop i s).
Proof.
  revert i. induction s as [|c s IH]; intros i.
  - intros _. by rewrite drop_nil.
  - simpl. destruct (Py.startswith sub (c :: s)) eqn:E; intros Hf; simplify_eq/=.
    + by rewrite E.
    + destruct (Py.find sub s) as [j|]; simplify_eq/=. by apply IH.
Qed.

Lemma find_Some_decompose sub s i :
  Py.find sub s = Some i →
  s = take i s ++ sub ++ drop (i + length sub) s ∧ i + length sub ≤ length s.
Proof.
  revert i. induction s as [|c s IH]; intros i; simpl.
  - destruct (Py.startswith sub []) eqn:E; intros; simplify_eq/=.
    apply startswith_true, prefix_nil_inv in E. by subst.
  - destruct (Py.startswith sub (c :: s)) eqn:E; intros Hf.
    + apply startswith_true in E as [t Ht]. injection Hf as <-.
      pose proof (f_equal length Ht) as Hl. rewrite length_app in Hl.
      rewrite Ht. cbn [take Nat.add app]. rewrite drop_app_length.
      simpl in Hl. split; [done|lia].
    + destruct (Py.find sub s) as [j|]; simplify_eq/=.
      destruct (IH j eq_refl) as [Hs Hlen]. split; [by f_equal|lia].
Qed.

(** Text after a found occurrence does not move it. *)
Lemma find_Some_app sub s t i :
  Py.find sub s = Some i → Py.find sub (s ++ t) = Some i.
Proof.
  revert i. induction s as [|c s IH]; intros i; simpl.
  - destruct (Py.startswith sub []) eqn:E; intros; simplify_eq/=.
    apply startswith_true, prefix_nil_inv in E. subst.
    destruct t; done.
  - destruct (Py.startswith sub (c :: s)) eqn:E; intros Hf; simplify_eq/=.
    + apply startswith_true in E.
      change (c :: s ++ t) with ((c :: s) ++ t).
      by rewrite (proj2 (startswith_true _ _) (prefix_app_r _ _ t E)).
    + destruct (Py.find sub s) as [j|] eqn:Ej; simplify_eq/=.
      destruct (find_Some_decompose _ _ _ Ej) as [_ Hlen].
      rewrite (IH j eq_refl). simpl.
      change (c :: s ++ t) with ((c :: s) ++ t).
      destruct (Py.startswith sub ((c :: s) ++ t)) eqn:E'; [|done].
      apply startswith_true in E'. apply startswith_false in E.
      exfalso. apply E.
      apply (prefix_of_shorter _ _ ((c :: s) ++ t)); [done|by apply prefix_app_r|].
      simpl. lia.
Qed.

Lemma occurrences_app_ge sub a s :
  Py.occurrences sub s ≤ Py.occurrences sub (a ++ s).
Proof. induction a as [|c a IH]; simpl; lia. Qed.

Section Unbordered.

Variable L : str.
Hypothesis L_unbordered : unbordered L.
Hypothesis L_nonempty : L ≠ [].

Lemma startswith_before_label a b :
  a ≠ [] → Py.startswith L (a ++ L ++ b) = Py.startswith L a.
Proof using L_unbordered.
  intros Ha. destruct (Py.startswith L a) eqn:E.
  - apply startswith_true. apply prefix_app_r. by apply startswith_true.
  - apply startswith_false. intros H. apply startswith_false in E.
    apply E. by eapply unbordered_straddle.
Qed.

Lemma occurrences_inside_label b n k :
  k + n = length L →
  Py.occurrences L (drop k L ++ b)
  = (if decide (k = 0) then 1 else 0) + Py.occurrences L b.
Proof using L_unbordered L_nonempty.
  revert k. induction n as [|n IH]; intros k Hk.
  - rewrite drop_ge by lia. case_decide; [|done].
    destruct L; [done|simpl in Hk; lia].
  - destruct (lookup_lt_is_Some_2 L k) as [c Hc]; [lia|].
    rewrite (drop_S _ _ _ Hc).
    change ((c :: drop (S k) L) ++ b) with (c :: (drop (S k) L ++ b)).
    cbn [Py.occurrences].
    rewrite (IH (S k)) by lia.
    replace (c :: drop (S k) L ++ b) with (drop k L ++ b)
      by (by rewrite (drop_S _ _ _ Hc)).
    destruct (decide (k = 0)) as [->|Hk0].
    + rewrite drop_0, startswith_app. done.
    + rewrite (proj2 (startswith_false _ _)); [done|].
      apply unbordered_inside; [done|lia].
Qed.

(** The occurrences of the label add up around one of its occurrences. *)
Lemma occurrences_app_label a b :
  Py.occurrences L (a ++ L ++ b)
  = Py.occurrences L a + 1 + Py.occurrences L b.
Proof using L_unbordered L_nonempty.
  induction a as [|c a IH].
  - rewrite <- (drop_0 L) at 2.
    rewrite app_nil_l, (occurrences_inside_label b (length L) 0) by done.
    simpl. destruct (Py.startswith L []) eqn:E; [|done].
    apply startswith_true, prefix_nil_inv in E. done.
  - change ((c :: a) ++ L ++ b) with (c :: (a ++ L ++ b)).
    cbn [Py.occurrences]. rewrite IH.
    change (c :: a ++ L ++ b) with ((c :: a) ++ L ++ b).
    rewrite startswith_before_label by done. lia.
Qed.

Lemma find_app_label a b :
  Py.find L a = None → Py.find L (a ++ L ++ b) = Some (length a).
Proof using L_unbordered.
  induction a as [|c a IH]; simpl.
  - intros _. apply find_startswith, startswith_app.
  - change (c :: a ++ L ++ b) with ((c :: a) ++ L ++ b).
    rewrite startswith_before_label by done.
    destruct (Py.startswith L (c :: a)); [done|].
    destruct (Py.find L a); [done|]. intros _. by rewrite IH.
Qed.

End Unbordered.

(** *** split and replace *)

Lemma split_rounds_enough sep s n m :
  sep ≠ [] → length s ≤ n → length s ≤ m →
  Py.split_rounds n sep s = Py.split_rounds m sep s.
Proof.
  intros Hsep. revert s m. induction n as [|n IH]; intros s m Hn Hm.
  - destruct s; [|simpl in Hn; lia].
    destruct m; simpl; [done|].
    destruct (Py.startswith sep []) eqn:E; [|done].
    apply startswith_true, prefix_nil_inv in E. done.
  - destruct m as [|m].
    + destruct s; [|simpl in Hm; lia]. simpl.
      destruct (Py.startswith sep []) eqn:E; [|done].
      apply startswith_true, prefix_nil_inv in E. done.
    + simpl. destruct (Py.find sep s) as [i|] eqn:Ef; [|done].
      f_equal. destruct (find_Some_decompose _ _ _ Ef) as [_ Hlen].
      assert (0 < length sep) by (destruct sep; [done|simpl; lia]).
      apply IH; rewrite length_drop; lia.
Qed.

(** The equation of [split]: the rounds never run out. *)
Lemma split_unfold sep s :
  sep ≠ [] →
  Py.split sep s =
    match Py.find sep s with
    | None => [s]
    | Some i => take i s :: Py.split sep (drop (i + length sep) s)
    end.
Proof.
  intros Hsep. unfold Py.split.
  destruct (Py.find sep s) as [i|] eqn:Ef.
  - destruct (find_Some_decompose _ _ _ Ef) as [_ Hlen].
    assert (0 < length sep) by (destruct sep; [done|simpl; lia]).
    destruct (length s) as [|n] eqn:En; [lia|].
    simpl. rewrite Ef. f_equal.
    apply split_rounds_enough; [done| |done]. rewrite length_drop. lia.
  - destruct (length s); simpl; by rewrite ?Ef.
Qed.

Lemma split_no_occurrence sep s :
  sep ≠ [] → Py.occurrences sep s = 0 → Py.split sep s = [s].
Proof.
  intros Hsep Hocc. rewrite split_unfold by done.
  by rewrite (proj2 (find_None_occurrences _ _) Hocc).
Qed.

Lemma split_nonempty sep s : sep ≠ [] → Py.split sep s ≠ [].
Proof.
  intros Hsep. rewrite split_unfold by done. by destruct (Py.find sep s).
Qed.

Lemma join_cons new p ps :
  ps ≠ [] → Py.join new (p :: ps) = p ++ new ++ Py.join new ps.
Proof. by destruct ps. Qed.

(** The equation of [replace]. *)
Lemma replace_unfold old new s :
  old ≠ [] →
  Py.replace old new s =
    match Py.find old s with
    | None => s
    | Some i => take i s ++ new ++ Py.replace old new (drop (i + length old) s)
    end.
Proof.
  intros Hold. unfold Py.replace. rewrite split_unfold by done.
  destruct (Py.find old s); [|done].
  by rewrite join_cons by by apply split_nonempty.
Qed.

Section UnborderedSplit.

Variable L : str.
Hypothesis L_unbordered : unbordered L.
Hypothesis L_nonempty : L ≠ [].

(** [split] yields one piece more than the label has occurrences. *)
Lemma split_length s :
  length (Py.split L s) = S (Py.occurrences L s).
Proof using L_unbordered L_nonempty.
  remember (length s) as n eqn:Hn. revert s Hn.
  induction (lt_wf n) as [n _ IH]; intros s ->.
  rewrite split_unfold by done.
  destruct (Py.find L s) as [i|] eqn:Ef.
  - destruct (find_Some_decompose _ _ _ Ef) as [Hs Hlen].
    assert (0 < length L) by (destruct L; [done|simpl; lia]).
    rewrite (find_Some_occurrences _ _ _ Ef).
    assert (drop i s = L ++ drop (i + length L) s) as ->.
    { rewrite Hs at 1. rewrite drop_app_length'; [done|].
      rewrite length_take. lia. }
    rewrite <- (app_nil_l (L ++ _)), occurrences_app_label by done.
    simpl. rewrite (IH (length (drop (i + length L) s))); [|rewrite length_drop; lia|done].
    destruct (Py.startswith L []) eqn:E; [|done].
    apply startswith_true, prefix_nil_inv in E. done.
  - apply find_None_occurrences in Ef. by rewrite Ef.
Qed.

(** Around the first occurrence of the label. *)
Lemma split_app_label a b :
  Py.occurrences L a = 0 →
  Py.split L (a ++ L ++ b) = a :: Py.split L b.
Proof using L_unbordered L_nonempty.
  intros Ha. apply find_None_occurrences in Ha.
  rewrite split_unfold by done. rewrite find_app_label by done.
  rewrite take_app_length.
  rewrite (assoc_L (++) a L b), <- length_app, drop_app_length. done.
Qed.

(** [replace] reaches every occurrence of the label, wherever it is. *)
Lemma replace_app_label new a b :
  Py.replace L new (a ++ L ++ b)
  = Py.replace L new a ++ new ++ Py.replace L new b.
Proof using L_unbordered L_nonempty.
  remember (length a) as n eqn:Hn. revert a Hn.
  induction (lt_wf n) as [n _ IH]; intros a ->.
  rewrite (replace_unfold L new a), (replace_unfold L new (a ++ L ++ b)) by done.
  destruct (Py.find L a) as [i|] eqn:Ef.
  - rewrite (find_Some_app _ _ (L ++ b) _ Ef).
    destruct (find_Some_decompose _ _ _ Ef) as [Hs Hlen].
    assert (0 < length L) by (destruct L; [done|simpl; lia]).
    rewrite take_app_le by lia. rewrite drop_app_le by lia.
    rewrite (IH (length (drop (i + length L) a))); [|rewrite length_drop; lia|done].
    by rewrite <- !(assoc_L (++)).
  - rewrite find_app_label by done. rewrite take_app_length.
    rewrite (assoc_L (++) a L b), <- length_app, drop_app_length. done.
Qed.

End UnborderedSplit.

(** *** strip *)

Lemma lstrip_head s c : head (Py.lstrip s) = Some c → Py.isspace c = false.
Proof.
  induction s as [|x s IH]; simpl; [done|].
  destruct (Py.isspace x) eqn:E; [done|]. simpl. congruence.
Qed.

Lemma lstrip_suffix s : Py.lstrip s `suffix_of` s.
Proof.
  induction s as [|x s IH]; simpl; [done|].
  destruct (Py.isspace x); [by apply suffix_cons_r|done].
Qed.

Lemma rstrip_last s c : last (Py.rstrip s) = Some c → Py.isspace c = false.
Proof. unfold Py.rstrip. rewrite last_reverse. apply lstrip_head. Qed.

Lemma rstrip_prefix s : Py.rstrip s `prefix_of` s.
Proof.
  unfold Py.rstrip. destruct (lstrip_suffix (reverse s)) as [k Hk].
  exists (reverse k). apply (inj reverse).
  by rewrite reverse_app, !reverse_involutive.
Qed.

Lemma strip_trimmed s : trimmed (Py.strip s).
Proof.
  unfold Py.strip. split; intros c Hc.
  - apply (lstrip_head s).
    destruct (rstrip_prefix (Py.lstrip s)) as [k Hk].
    rewrite Hk. by destruct (Py.rstrip (Py.lstrip s)).
  - by apply rstrip_last in Hc.
Qed.

End Strings.

(** The three labels of the reply format are unbordered. *)
Lemma INPUT_unbordered : unbordered "INPUT:".
Proof. apply unborderedb_sound. vm_compute. reflexivity. Qed.

Lemma OUTPUT_unbordered : unbordered "OUTPUT:".
Proof. apply unborderedb_sound. vm_compute. reflexivity. Qed.

Lemma INSTRUCTION_unbordered : unbordered "INSTRUCTION:".
Proof. apply unborderedb_sound. vm_compute. reflexivity. Qed.

(** ** Parsing a reply (C1, C10) *)

Lemma parse_reply_labelled a b c :
  Py.occurrences "INPUT:" (labelled a b c) = 1 →
  Py.occurrences "OUTPUT:" (labelled a b c) = 1 →
  parse_reply (labelled a b c)
  = Some {| instruction := Py.strip (Py.replace "INSTRUCTION:" [] a);
            input := Py.strip b;
            output := Py.strip c |}.
Proof.
  unfold labelled. intros Hin Hout.
  rewrite (occurrences_app_label _ INPUT_unbordered) in Hin by done.
  pose proof (occurrences_app_ge "OUTPUT:" (a ++ "INPUT:") (b ++ "OUTPUT:" ++ c))
    as Hge.
  rewrite <- (assoc_L (++)) in Hge.
  rewrite (occurrences_app_label _ OUTPUT_unbordered) in Hge by done.
  unfold parse_reply.
  rewrite (split_app_label _ INPUT_unbordered) by (done || lia).
  rewrite split_no_occurrence by (done || lia).
  rewrite (split_app_label _ OUTPUT_unbordered) by (done || lia).
  rewrite split_no_occurrence by (done || lia).
  done.
Qed.

Lemma parse_reply_other_count reply :
  Py.occurrences "INPUT:" reply ≠ 1 → parse_reply reply = None.
Proof.
  intros Hn. unfold parse_reply.
  pose proof (split_length _ INPUT_unbordered ltac:(done) reply) as Hlen.
  destruct (Py.split "INPUT:" reply) as [|p0 [|p1 [|p2 ps]]]; try done.
  cbn [length] in Hlen. lia.
Qed.

(** C1, as amended: a reply in which [INPUT:] does not occur exactly once
    gives no record; a reply in which [INPUT:] and [OUTPUT:] each occur
    exactly once, the [OUTPUT:] after the [INPUT:], gives exactly one
    record, made of the three texts around the labels (the first without
    its [INSTRUCTION:] labels), each trimmed of whitespace at both ends. *)
Theorem parse_reply_spec reply :
  (Py.occurrences "INPUT:" reply ≠ 1 → parse_reply reply = None)
  ∧ (∀ a b c,
       reply = labelled a b c →
       Py.occurrences "INPUT:" reply = 1 →
       Py.occurrences "OUTPUT:" reply = 1 →
       ∃ p, parse_reply reply = Some p
            ∧ instruction p = Py.strip (Py.replace "INSTRUCTION:" [] a)
            ∧ input p = Py.strip b
            ∧ output p = Py.strip c
            ∧ trimmed (instruction p) ∧ trimmed (input p)
            ∧ trimmed (output p)).
Proof.
  split; [apply parse_reply_other_count|].
  intros a b c -> Hin Hout. eexists. split.
  - by apply parse_reply_labelled.
  - simpl. repeat split; apply strip_trimmed.
Qed.

(** C1, as stated, fails: this reply has exactly one [INPUT:] and exactly
    one [OUTPUT:], in the other order, and gives no record. *)
Lemma parse_reply_output_first :
  Py.occurrences "INPUT:" "OUTPUT: boil it INPUT: pasta" = 1
  ∧ Py.occurrences "OUTPUT:" "OUTPUT: boil it INPUT: pasta" = 1
  ∧ parse_reply "OUTPUT: boil it INPUT: pasta" = None.
Proof. vm_compute. done. Qed.

Lemma parse_reply_spec_witness :
  parse_reply "Sorry, I cannot help with that." = None
  ∧ ∃ p, parse_reply (labelled "INSTRUCTION: Cook " " pasta " " Boil it. ")
         = Some p
         ∧ instruction p = Py.strip (Py.replace "INSTRUCTION:" [] "INSTRUCTION: Cook ")
         ∧ input p = Py.strip " pasta "
         ∧ output p = Py.strip " Boil it. "
         ∧ trimmed (instruction p) ∧ trimmed (input p) ∧ trimmed (output p).
Proof.
  split.
  - apply (proj1 (parse_reply_spec _)). vm_compute. lia.
  - apply (proj2 (parse_reply_spec _)); vm_compute; reflexivity.
Defined.

(** C10: [replace] removes the [INSTRUCTION:] label at every place of the
    text before [INPUT:], not only a leading one: an occurrence between any
    two texts goes, the stored instruction is the trimmed result, and for
    some reply whose instruction body itself contains the label the stored
    instruction differs from the body without its leading label. *)
Theorem instruction_labels_all_removed :
  (∀ a b,
     Py.replace "INSTRUCTION:" [] (a ++ "INSTRUCTION:" ++ b)
     = Py.replace "INSTRUCTION:" [] a ++ Py.replace "INSTRUCTION:" [] b)
  ∧ (∀ reply p,
       parse_reply reply = Some p →
       ∃ part0 part1,
         Py.split "INPUT:" reply = [part0; part1]
         ∧ instruction p = Py.strip (Py.replace "INSTRUCTION:" [] part0))
  ∧ (∃ body rest p,
       Py.split "INPUT:" (body ++ "INPUT:" ++ rest) = [body; rest]
       ∧ parse_reply (body ++ "INPUT:" ++ rest) = Some p
       ∧ Py.contains "INSTRUCTION:" (without_leading_label body) = true
       ∧ instruction p ≠ without_leading_label body).
Proof.
  split; [|split].
  - intros a b.
    by rewrite (replace_app_label _ INSTRUCTION_unbordered ltac:(done) [] a b).
  - intros reply p. unfold parse_reply.
    destruct (Py.split "INPUT:" reply) as [|p0 [|p1 [|p2 ps]]]; try done.
    destruct (Py.split "OUTPUT:" p1) as [|q0 [|q1 [|q2 qs]]]; try done.
    intros [= <-]. by exists p0, p1.
  - exists ("INSTRUCTION: Say INSTRUCTION: aloud " : str),
           (" recipe OUTPUT: ok" : str).
    eexists. split; [by vm_compute|]. split; [by vm_compute|].
    split; [by vm_compute|]. vm_compute. discriminate.
Qed.

Lemma instruction_labels_all_removed_witness :
  ∃ part0 part1,
    Py.split "INPUT:" "INSTRUCTION: Cook INPUT: pasta OUTPUT: Boil it."
    = [part0; part1]
    ∧ (Py.strip "Cook" : str)
      = Py.strip (Py.replace "INSTRUCTION:" [] part0).
Proof.
  apply (proj1 (proj2 instruction_labels_all_removed)
           "INSTRUCTION: Cook INPUT: pasta OUTPUT: Boil it."
           {| instruction := Py.strip "Cook"; input := "pasta";
              output := "Boil it." |}).
  vm_compute. reflexivity.
Defined.

(** ** Link discovery (C2, C5, C7, C8) *)

Lemma size_elements (X : gset str) : length (elements X) = size X.
Proof. reflexivity. Qed.

Lemma keeps_pattern self href :
  keeps self href = true →
  ∃ pattern, pattern ∈ recipe_patterns
             ∧ Py.contains pattern (Py.lower href) = true.
Proof.
  unfold keeps. rewrite !andb_true_iff. intros [[H _] _].
  apply existsb_exists in H as (pattern & Hin & Hc).
  exists pattern. by rewrite list_elem_of_In.
Qed.

Lemma keeps_base_url self href :
  keeps self href = true → Py.contains (base_url self) href = true.
Proof. unfold keeps. rewrite !andb_true_iff. tauto. Qed.

Lemma keeps_not_visited self href :
  keeps self href = true → href ∉ visited_urls self.
Proof.
  unfold keeps. rewrite !andb_true_iff, negb_true_iff, bool_decide_eq_false.
  tauto.
Qed.

Section Discovery.

Variable requests_get : list str → str → get_result.
Variable http_error_msg : response → str.
Variable soup_hrefs : str → list str.
Variable urljoin : str → str → str.

Local Abbreviation scan := (scan_links urljoin).
Local Abbreviation discover :=
  (find_recipe_links requests_get http_error_msg soup_hrefs urljoin).

(** Every link the loop adds is a resolved anchor of the page that passes
    the filter. *)
Lemma scan_links_elem self u max_links hrefs recipe_links x :
  x ∈ scan self u max_links hrefs recipe_links →
  x ∈ recipe_links
  ∨ (x ∈ absolute urljoin u <$> hrefs) ∧ keeps self x = true.
Proof.
  revert recipe_links.
  induction hrefs as [|href rest IH]; intros acc; simpl; [by left|].
  destruct (keeps self (absolute urljoin u href)) eqn:Hk.
  - destruct (Z.of_nat (size (acc ∪ {[absolute urljoin u href]})) >=? max_links)%Z.
    + rewrite elem_of_union, elem_of_singleton.
      intros [?| ->]; [by left|right]. split; [left|done].
    + intros [Hx|[Hx ?]]%IH.
      * apply elem_of_union in Hx as [?|Hx]; [by left|right].
        apply elem_of_singleton in Hx as ->. split; [left|done].
      * right. split; [by right|done].
  - intros Hx. apply IH in Hx as [Hx|[Hx ?]]; [by left|right].
    split; [by right|done].
Qed.

(** While the set is below a maximum of at least one, the loop keeps it
    within the maximum. *)
Lemma scan_links_size self u max_links hrefs recipe_links :
  (Z.of_nat (size recipe_links) < max_links)%Z →
  (Z.of_nat (size (scan self u max_links hrefs recipe_links)) ≤ max_links)%Z.
Proof.
  revert recipe_links.
  induction hrefs as [|href rest IH]; intros acc Hlt; simpl; [lia|].
  destruct (keeps self (absolute urljoin u href)); [|by apply IH].
  destruct (Z.geb_spec (Z.of_nat (size (acc ∪ {[absolute urljoin u href]})))
              max_links) as [Hge|Hlt'].
  - pose proof (size_union_alt acc {[absolute urljoin u href]}) as Hsz.
    assert (size ({[absolute urljoin u href]} ∖ acc : gset str) ≤ 1).
    { rewrite <- (size_singleton (C:=gset str) (absolute urljoin u href)).
      apply subseteq_size, subseteq_difference_l. done. }
    lia.
  - by apply IH.
Qed.

(** With a maximum of one, the loop stops at the first link it keeps. *)
Lemma scan_links_first self u hrefs :
  scan self u 1 hrefs ∅
  = match filter (λ x, keeps self x = true) (absolute urljoin u <$> hrefs) with
    | [] => ∅
    | x :: _ => {[ x ]}
    end.
Proof.
  induction hrefs as [|href rest IH]; [done|].
  cbn [scan_links]. rewrite fmap_cons, filter_cons.
  destruct (keeps self (absolute urljoin u href)) eqn:Hk.
  - rewrite decide_True by done.
    rewrite (left_id_L ∅ (∪)), size_singleton. done.
  - rewrite decide_False by (by intros ?). done.
Qed.

(** What [find_recipe_links] does, by the outcome of the request. *)
Lemma find_recipe_links_unfold u max_links w :
  discover u max_links w =
    let w' := set_http_log (http_log w ++ [u]) w in
    match requests_get (http_log w) u with
    | GetRaises msg =>
        (Returns [],
         set_stdout (stdout w' ++ ["Error finding recipe links: " ++ msg]) w')
    | GetReturns r =>
        if ((400 <=? status_code r) && (status_code r <? 600))%Z
        then (Returns [],
              set_stdout (stdout w' ++ ["Error finding recipe links: "
                                        ++ http_error_msg r]) w')
        else (Returns (elements (scan w' u max_links (soup_hrefs (text r)) ∅)),
              w')
    end.
Proof.
  unfold find_recipe_links, try_except, get, raise_for_status, mbind, M_bind,
    mret, M_ret, raise, get_world, print, modify.
  destruct (requests_get (http_log w) u) as [msg|r]; simpl.
  - by rewrite elements_empty.
  - destruct ((400 <=? status_code r) && (status_code r <? 600))%Z; simpl;
      by rewrite ?elements_empty.
Qed.

(** A visited URL is not among the links returned. *)
Lemma find_recipe_links_not_visited u max_links w x :
  x ∈ visited_urls w →
  ∃ links w', discover u max_links w = (Returns links, w') ∧ x ∉ links.
Proof.
  intros Hv. rewrite find_recipe_links_unfold. cbn zeta.
  destruct (requests_get (http_log w) u) as [msg|r];
    [|destruct ((400 <=? status_code r) && (status_code r <? 600))%Z].
  1,2: do 2 eexists; split; [reflexivity|]; apply not_elem_of_nil.
  do 2 eexists. split; [reflexivity|].
  intros Hx. apply elem_of_elements, scan_links_elem in Hx as [Hx|[_ Hk]].
  - by apply elem_of_empty in Hx.
  - by apply keeps_not_visited in Hk.
Qed.

(** Whatever the request gives, [find_recipe_links] returns. *)
Lemma find_recipe_links_returns u max_links w :
  ∃ links w', discover u max_links w = (Returns links, w').
Proof.
  rewrite find_recipe_links_unfold. cbn zeta.
  destruct (requests_get (http_log w) u) as [msg|r];
    [|destruct ((400 <=? status_code r) && (status_code r <? 600))%Z];
    by do 2 eexists.
Qed.

End Discovery.

(** C7, as amended: when [requests.get] raises a [RequestException], or
    the response has a client or server error status (400 to 599, the ones
    for which [raise_for_status] raises), the exception is caught: the
    request has been made, one line with the message of that exception is
    printed, nothing else changes and the empty list is returned. *)
Theorem find_recipe_links_request_failure
    (requests_get : list str → str → get_result)
    (http_error_msg : response → str) (soup_hrefs : str → list str)
    (urljoin : str → str → str) (u : str) (max_links : Z) (w : world) :
  (∀ msg,
     requests_get (http_log w) u = GetRaises msg →
     is_RequestException (ConnectionError msg) = true
     ∧ find_recipe_links requests_get http_error_msg soup_hrefs urljoin
         u max_links w
       = (Returns [],
          set_stdout
            (stdout w ++ ["Error finding recipe links: "
                          ++ exn_str (ConnectionError msg)])
            (set_http_log (http_log w ++ [u]) w)))
  ∧ (∀ r,
       requests_get (http_log w) u = GetReturns r →
       (400 ≤ status_code r < 600)%Z →
       is_RequestException (HTTPError (http_error_msg r)) = true
       ∧ find_recipe_links requests_get http_error_msg soup_hrefs urljoin
           u max_links w
         = (Returns [],
            set_stdout
              (stdout w ++ ["Error finding recipe links: "
                            ++ exn_str (HTTPError (http_error_msg r))])
              (set_http_log (http_log w ++ [u]) w))).
Proof.
  split.
  - intros msg Hget. split; [done|].
    by rewrite find_recipe_links_unfold, Hget.
  - intros r Hget Hst. split; [done|].
    rewrite find_recipe_links_unfold, Hget. cbn zeta.
    assert (((400 <=? status_code r) && (status_code r <? 600))%Z = true) as ->
      by (apply andb_true_iff; split; lia).
    done.
Qed.

Lemma find_recipe_links_request_failure_witness :
  find_recipe_links Example.unreachable Example.error_msg
    (Example.anchors ["/recipe/pasta" : str]) Example.join_path
    "https://example.com/" 10 (init "example.com" ∅)
  = (Returns [],
     set_stdout ["Error finding recipe links: Connection refused" : str]
       (set_http_log ["https://example.com/" : str] (init "example.com" ∅)))
  ∧ find_recipe_links Example.not_found Example.error_msg
      (Example.anchors ["/recipe/pasta" : str]) Example.join_path
      "https://example.com/" 10 (init "example.com" ∅)
    = (Returns [],
       set_stdout ["Error finding recipe links: Client Error" : str]
         (set_http_log ["https://example.com/" : str] (init "example.com" ∅))).
Proof.
  split.
  - apply (proj1 (find_recipe_links_request_failure
                    Example.unreachable Example.error_msg
                    (Example.anchors ["/recipe/pasta" : str])
                    Example.join_path "https://example.com/" 10
                    (init "example.com" ∅)) "Connection refused").
    reflexivity.
  - apply (proj2 (find_recipe_links_request_failure
                    Example.not_found Example.error_msg
                    (Example.anchors ["/recipe/pasta" : str])
                    Example.join_path "https://example.com/" 10
                    (init "example.com" ∅))
             {| status_code := 404; text := [] |}).
    + reflexivity.
    + simpl. lia.
Defined.

(** C7, as stated, fails: a response with status 304 is not a success, yet
    [raise_for_status] lets it pass; the page is parsed, its link is
    returned and nothing is printed. *)
Lemma find_recipe_links_status_304 :
  find_recipe_links
    (λ _ _, GetReturns {| status_code := 304; text := "<html>" |})
    Example.error_msg (Example.anchors ["/recipe/pasta" : str])
    Example.join_path "https://example.com/" 10 (init "example.com" ∅)
  = (Returns ["https://example.com/recipe/pasta" : str],
     set_http_log ["https://example.com/" : str] (init "example.com" ∅)).
Proof. vm_compute. reflexivity. Qed.

(** C2, as amended: the list returned by [find_recipe_links] is made of
    anchors of the fetched page, resolved against the page URL; the
    lowercased form of each returned URL contains one of the recipe
    patterns; each returned URL itself, as written, contains the configured
    base URL; and when the requested maximum is at least one, the list is no
    longer than the maximum. *)
Theorem find_recipe_links_spec
    (requests_get : list str → str → get_result)
    (http_error_msg : response → str) (soup_hrefs : str → list str)
    (urljoin : str → str → str) (u : str) (max_links : Z) (w : world) :
  ∃ links w',
    find_recipe_links requests_get http_error_msg soup_hrefs urljoin
      u max_links w = (Returns links, w')
    ∧ (∀ x, x ∈ links →
         ∃ r, requests_get (http_log w) u = GetReturns r
              ∧ x ∈ absolute urljoin u <$> soup_hrefs (text r))
    ∧ (∀ x, x ∈ links →
         (∃ pattern, pattern ∈ recipe_patterns
                     ∧ Py.contains pattern (Py.lower x) = true)
         ∧ Py.contains (base_url w) x = true)
    ∧ ((1 ≤ max_links)%Z → (Z.of_nat (length links) ≤ max_links)%Z).
Proof.
  rewrite find_recipe_links_unfold. cbn zeta.
  destruct (requests_get (http_log w) u) as [msg|r];
    [|destruct ((400 <=? status_code r) && (status_code r <? 600))%Z].
  1,2: do 2 eexists; split; [reflexivity|];
       split; [|split]; [by intros x ?%elem_of_nil..|simpl; lia].
  do 2 eexists. split; [reflexivity|].
  split; [|split].
  - intros x Hx. exists r. split; [done|].
    apply elem_of_elements, scan_links_elem in Hx as [Hx|[Hx _]]; [|done].
    by apply elem_of_empty in Hx.
  - intros x Hx.
    apply elem_of_elements, scan_links_elem in Hx as [Hx|[_ Hk]].
    { by apply elem_of_empty in Hx. }
    split; [by eapply keeps_pattern|by apply keeps_base_url in Hk].
  - intros Hmax. rewrite size_elements.
    apply scan_links_size. rewrite size_empty. lia.
Qed.

Lemma find_recipe_links_spec_witness :
  ∃ links,
    fst (find_recipe_links
           (Example.serves "<html>") Example.error_msg
           (Example.anchors ["/recipe/pasta" : str; "/recipes/soup" : str])
           Example.join_path "https://example.com/" 1
           (init "example.com" ∅)) = Returns links
    ∧ (Z.of_nat (length links) ≤ 1)%Z
    ∧ ∀ x, x ∈ links →
        (∃ pattern, pattern ∈ recipe_patterns
                    ∧ Py.contains pattern (Py.lower x) = true)
        ∧ Py.contains "example.com" x = true.
Proof.
  destruct (find_recipe_links_spec
              (Example.serves "<html>") Example.error_msg
              (Example.anchors ["/recipe/pasta" : str; "/recipes/soup" : str])
              Example.join_path "https://example.com/" 1
              (init "example.com" ∅))
    as (links & w' & Heq & _ & Hkeep & Hmax).
  exists links. rewrite Heq. split; [reflexivity|]. split.
  - apply Hmax. lia.
  - exact Hkeep.
Defined.

(** C2, as stated, fails twice.  With a maximum of zero the loop still
    returns the first link it keeps; and a base URL written with capitals
    is looked for in the link as written, so the lowercased form of a
    returned link need not contain it. *)
Lemma find_recipe_links_as_stated_fails :
  (∃ links,
     fst (find_recipe_links
            (Example.serves "<html>") Example.error_msg
            (Example.anchors ["/recipe/pasta" : str; "/recipes/soup" : str])
            Example.join_path "https://example.com/" 0
            (init "example.com" ∅)) = Returns links
     ∧ ¬ (Z.of_nat (length links) ≤ 0)%Z)
  ∧ (∃ links x,
       fst (find_recipe_links
              (Example.serves "<html>") Example.error_msg
              (Example.anchors ["https://Example.com/recipe/pasta" : str])
              Example.join_path "https://Example.com/" 10
              (init "https://Example.com" ∅)) = Returns links
       ∧ x ∈ links
       ∧ Py.contains "https://Example.com" (Py.lower x) = false).
Proof.
  split.
  - eexists. split; [vm_compute; reflexivity|]. simpl. lia.
  - do 2 eexists. split; [vm_compute; reflexivity|].
    split; [left|]. vm_compute. reflexivity.
Qed.

(** C5: a URL that is in the visited set when [find_recipe_links] is called
    is not in the list it returns. *)
Theorem visited_never_returned
    (requests_get : list str → str → get_result)
    (http_error_msg : response → str) (soup_hrefs : str → list str)
    (urljoin : str → str → str) (u : str) (max_links : Z) (w : world)
    (x : str) :
  x ∈ visited_urls w →
  ∃ links w',
    find_recipe_links requests_get http_error_msg soup_hrefs urljoin
      u max_links w = (Returns links, w')
    ∧ x ∉ links.
Proof. apply find_recipe_links_not_visited. Qed.

Lemma visited_never_returned_witness :
  ∃ links w',
    find_recipe_links
      (Example.serves "<html>") Example.error_msg
      (Example.anchors ["/recipe/pasta" : str; "/recipes/soup" : str])
      Example.join_path "https://example.com/" 10
      (set_visited_urls {[ "https://example.com/recipe/pasta" : str ]}
         (init "example.com" ∅)) = (Returns links, w')
    ∧ ("https://example.com/recipe/pasta" : str) ∉ links.
Proof.
  apply visited_never_returned. simpl. apply elem_of_singleton. reflexivity.
Defined.

(** The visited set is looked up by the exact string: with
    [.../recipe/pasta] visited, the same address with a trailing slash is
    still returned. *)
Lemma visited_exact_match :
  fst (find_recipe_links
         (Example.serves "<html>") Example.error_msg
         (Example.anchors ["/recipe/pasta" : str; "/recipe/pasta/" : str])
         Example.join_path "https://example.com/" 10
         (set_visited_urls {[ "https://example.com/recipe/pasta" : str ]}
            (init "example.com" ∅)))
  = Returns ["https://example.com/recipe/pasta/" : str].
Proof. vm_compute. reflexivity. Qed.

(** C8: on a page with the anchors [/recipe/pasta], [/about] and
    [/recipes/soup], in any document order, with the base domain
    [example.com] and a maximum of one, discovery returns exactly one URL:
    the resolved form of whichever of [/recipe/pasta] and [/recipes/soup]
    comes first on the page, never that of [/about]. *)
Theorem discovery_scenario
    (requests_get : list str → str → get_result)
    (http_error_msg : response → str) (soup_hrefs : str → list str)
    (urljoin : str → str → str) (page_url : str) (w : world) (r : response) :
  base_url w = "example.com" →
  visited_urls w = ∅ →
  requests_get (http_log w) page_url = GetReturns r →
  status_code r = 200%Z →
  soup_hrefs (text r)
    ≡ₚ ["/recipe/pasta" : str; "/about" : str; "/recipes/soup" : str] →
  (∀ h, h ∈ soup_hrefs (text r) →
        urljoin page_url h = "https://example.com" ++ h) →
  ∃ first w',
    head (filter (λ h, h ≠ ("/about" : str)) (soup_hrefs (text r)))
    = Some first
    ∧ find_recipe_links requests_get http_error_msg soup_hrefs urljoin
        page_url 1 w = (Returns ["https://example.com" ++ first], w')
    ∧ ("https://example.com" ++ first : str) ≠ "https://example.com/about".
Proof.
  intros Hbase Hvis Hget Hst Hperm Hjoin.
  rewrite find_recipe_links_unfold, Hget, Hst. cbn zeta iota beta.
  change ((400 <=? 200)%Z && (200 <? 600)%Z) with false. cbn iota.
  rewrite scan_links_first.
  remember (soup_hrefs (text r)) as hrefs eqn:Hh in *. clear Hh.
  assert (∀ h, h ∈ hrefs →
               absolute urljoin page_url h = "https://example.com" ++ h)
    as Habs.
  { intros h Hh. unfold absolute. rewrite (Hjoin h Hh).
    rewrite Hperm in Hh.
    repeat (apply elem_of_cons in Hh as [->|Hh]); try (by vm_compute).
    by apply elem_of_nil in Hh. }
  rewrite (list_fmap_ext _ (λ h, "https://example.com" ++ h) _
             (λ _ h Hh, Habs h (list_elem_of_lookup_2 _ _ _ Hh))).
  clear Habs Hjoin Hget.
  symmetry in Hperm. apply permutations_Permutation in Hperm.
  destruct w as [b v cu so fs mk hl cl sl]. simpl in Hbase, Hvis. subst b v.
  vm_compute in Hperm.
  repeat (apply elem_of_cons in Hperm as [Hperm|Hperm]);
    try (by apply elem_of_nil in Hperm);
    rewrite Hperm; eexists; eexists;
    (split; [vm_compute; reflexivity|]);
    (split; [vm_compute; reflexivity|]); vm_compute; discriminate.
Qed.

Lemma discovery_scenario_witness :
  ∃ first w',
    head (filter (λ h, h ≠ ("/about" : str))
            ["/recipe/pasta" : str; "/about" : str; "/recipes/soup" : str])
    = Some first
    ∧ find_recipe_links (Example.serves "<html>") Example.error_msg
        (Example.anchors
           ["/recipe/pasta" : str; "/about" : str; "/recipes/soup" : str])
        Example.join_path "https://example.com/" 1 (init "example.com" ∅)
      = (Returns ["https://example.com" ++ first], w')
    ∧ ("https://example.com" ++ first : str) ≠ "https://example.com/about".
Proof.
  apply (discovery_scenario (Example.serves "<html>") Example.error_msg
           (Example.anchors
              ["/recipe/pasta" : str; "/about" : str; "/recipes/soup" : str])
           Example.join_path "https://example.com/" (init "example.com" ∅)
           {| status_code := 200; text := "<html>" |});
    reflexivity.
Defined.

(** ** Generating pairs (C3, C6) *)

Lemma yield_length r : length (yield r) ≤ 1.
Proof.
  destruct r as [msg|[c|]]; simpl; try lia.
  destruct (parse_reply c); simpl; lia.
Qed.

Section Generation.

Variable chat_completions_create : list chat_request → chat_request → chat_result.

Local Abbreviation answer := chat_completions_create.

(** One round: the request goes out, and the answer contributes its pairs;
    whatever the answer is, the round returns. *)
Lemma attempt_spec text acc w :
  ∃ w',
    attempt answer text acc w
    = (Returns (acc ++ yield (answer (chat_log w) (request_for text))), w')
    ∧ chat_log w' = chat_log w ++ [request_for text]
    ∧ base_url w' = base_url w
    ∧ visited_urls w' = visited_urls w
    ∧ url w' = url w
    ∧ files w' = files w.
Proof.
  unfold attempt, try_except, create, mbind, M_bind, mret, M_ret, raise,
    print, modify.
  destruct (answer (chat_log w) (request_for text)) as [msg|[c|]];
    cbn [yield is_Exception].
  - eexists. rewrite app_nil_r. repeat split; reflexivity.
  - eexists.
    split; [by destruct (parse_reply c); cbn [option_list]; rewrite ?app_nil_r|].
    repeat split; reflexivity.
  - eexists. rewrite app_nil_r. repeat split; reflexivity.
Qed.

Lemma attempts_spec n text acc w :
  ∃ w',
    attempts answer n text acc w
    = (Returns
         (acc ++ (seq 0 n ≫= λ i,
                    yield (answer (chat_log w ++ replicate i (request_for text))
                             (request_for text)))),
       w')
    ∧ chat_log w' = chat_log w ++ replicate n (request_for text)
    ∧ base_url w' = base_url w
    ∧ visited_urls w' = visited_urls w
    ∧ url w' = url w
    ∧ files w' = files w.
Proof.
  revert acc w. induction n as [|n IH]; intros acc w.
  - exists w. cbn [attempts replicate]. rewrite !app_nil_r. by repeat split.
  - cbn [attempts]. unfold mbind at 1, M_bind at 1.
    destruct (attempt_spec text acc w) as (w1 & -> & Hlog & Hb & Hv & Hu & Hf).
    destruct (IH (acc ++ yield (answer (chat_log w) (request_for text))) w1)
      as (w' & -> & Hlog' & Hb' & Hv' & Hu' & Hf').
    exists w'. split; [|repeat split; try congruence].
    + do 2 f_equal. rewrite <- (assoc_L (++)). f_equal.
      rewrite <- cons_seq, <- fmap_S_seq. rewrite bind_cons.
      cbn [replicate]. rewrite app_nil_r, list_fmap_bind.
      f_equal. apply list_bind_ext; [|done].
      intros i. cbn [compose replicate].
      rewrite Hlog, <- (assoc_L (++)). done.
    + rewrite Hlog', Hlog, <- (assoc_L (++)). done.
Qed.

End Generation.

Lemma bind_length_le {A B} (f : A → list B) (l : list A) :
  (∀ x, length (f x) ≤ 1) → length (l ≫= f) ≤ length l.
Proof.
  intros Hf. induction l as [|x l IH]; [done|].
  rewrite bind_cons, length_app. specialize (Hf x). simpl. lia.
Qed.

(** C6: for a count [N], [generate_instruction_pairs] returns, with at
    most [N] records; all [N] requests are sent whatever the earlier answers
    were, and the records returned are those of the answers that parse, in
    order: an exception or a reply of the wrong shape costs its own round
    only. *)
Theorem generate_instruction_pairs_spec
    (chat_completions_create : list chat_request → chat_request → chat_result)
    (text_content : str) (N : Z) (w : world) :
  (0 ≤ N)%Z →
  ∃ pairs w',
    generate_instruction_pairs chat_completions_create text_content N w
    = (Returns pairs, w')
    ∧ (0 ≤ Z.of_nat (length pairs) ≤ N)%Z
    ∧ chat_log w'
      = chat_log w ++ replicate (Z.to_nat N) (request_for text_content)
    ∧ pairs
      = seq 0 (Z.to_nat N) ≫= λ i,
          yield (chat_completions_create
                   (chat_log w ++ replicate i (request_for text_content))
                   (request_for text_content)).
Proof.
  intros HN. unfold generate_instruction_pairs.
  destruct (attempts_spec chat_completions_create (Z.to_nat N) text_content
              [] w) as (w' & Heq & Hlog & _).
  rewrite app_nil_l in Heq. do 2 eexists. split; [exact Heq|].
  split; [|done].
  pose proof (bind_length_le
    (λ i, yield (chat_completions_create
                   (chat_log w ++ replicate i (request_for text_content))
                   (request_for text_content)))
    (seq 0 (Z.to_nat N)) (λ i, yield_length _)) as Hlen.
  rewrite length_seq in Hlen. lia.
Qed.

Lemma generate_instruction_pairs_spec_witness :
  ∃ pairs w',
    generate_instruction_pairs
      (Example.answers
         [ ChatReturns (Some ("INSTRUCTION: Cook INPUT: pasta OUTPUT: Boil." : str));
           ChatRaises "Connection error";
           ChatReturns (Some ("Sorry, I cannot help." : str));
           ChatReturns None;
           ChatReturns (Some ("INSTRUCTION: Bake INPUT: bread OUTPUT: Knead." : str)) ])
      "Spaghetti carbonara" 5 (init "example.com" ∅)
    = (Returns pairs, w')
    ∧ (0 ≤ Z.of_nat (length pairs) ≤ 5)%Z
    ∧ chat_log w'
      = chat_log (init "example.com" ∅)
        ++ replicate (Z.to_nat 5) (request_for "Spaghetti carbonara")
    ∧ pairs
      = seq 0 (Z.to_nat 5) ≫= λ i,
          yield (Example.answers
                   [ ChatReturns (Some ("INSTRUCTION: Cook INPUT: pasta OUTPUT: Boil." : str));
                     ChatRaises "Connection error";
                     ChatReturns (Some ("Sorry, I cannot help." : str));
                     ChatReturns None;
                     ChatReturns (Some ("INSTRUCTION: Bake INPUT: bread OUTPUT: Knead." : str)) ]
                   (chat_log (init "example.com" ∅)
                    ++ replicate i (request_for "Spaghetti carbonara"))
                   (request_for "Spaghetti carbonara")).
Proof. apply generate_instruction_pairs_spec. lia. Defined.

(** The same run, evaluated: the second, third and fourth rounds fail, each
    in its own way, and the fifth still adds its record. *)
Lemma generate_instruction_pairs_after_failures :
  fst (generate_instruction_pairs
         (Example.answers
            [ ChatReturns (Some ("INSTRUCTION: Cook INPUT: pasta OUTPUT: Boil." : str));
              ChatRaises "Connection error";
              ChatReturns (Some ("Sorry, I cannot help." : str));
              ChatReturns None;
              ChatReturns (Some ("INSTRUCTION: Bake INPUT: bread OUTPUT: Knead." : str)) ])
         "Spaghetti carbonara" 5 (init "example.com" ∅))
  = Returns [ {| instruction := "Cook"; input := "pasta"; output := "Boil." |};
              {| instruction := "Bake"; input := "bread"; output := "Knead." |} ].
Proof. vm_compute. reflexivity. Qed.

(** C3: for a text of more than 2000 characters, the user message of every
    request sent is the fixed template around the first 2000 characters of
    the text, exactly 2000 of them, and nothing of the text beyond them
    reaches the request: texts that agree on their first 2000 characters
    give the same request. *)
Theorem prompt_truncated (text_content : str) :
  2000 < length text_content →
  user_message text_content
  = user_prefix ++ take 2000 text_content ++ user_suffix
  ∧ length (take 2000 text_content) = 2000
  ∧ take 2000 text_content `prefix_of` text_content
  ∧ messages (request_for text_content)
    = [ {| role := "system"; content := system_prompt |};
        {| role := "user"; content := user_message text_content |} ]
  ∧ (∀ other, take 2000 other = take 2000 text_content →
              request_for other = request_for text_content)
  ∧ (∀ chat_completions_create N w,
       chat_log (snd (generate_instruction_pairs chat_completions_create
                        text_content N w))
       = chat_log w ++ replicate (Z.to_nat N) (request_for text_content)).
Proof.
  intros Hlen. split; [done|]. split; [rewrite length_take; lia|].
  split; [apply prefix_take|]. split; [done|]. split.
  - intros other Heq. unfold request_for, user_message. by rewrite Heq.
  - intros cc N w. unfold generate_instruction_pairs.
    destruct (attempts_spec cc (Z.to_nat N) text_content [] w)
      as (w' & -> & Hlog & _).
    done.
Qed.

Lemma prompt_truncated_witness :
  user_message (replicate 2000 "a"%char ++ "secret")
  = user_prefix ++ replicate 2000 "a"%char ++ user_suffix
  ∧ request_for (replicate 2000 "a"%char ++ "public")
    = request_for (replicate 2000 "a"%char ++ "secret").
Proof.
  destruct (prompt_truncated (replicate 2000 "a"%char ++ "secret"))
    as (Hmsg & _ & _ & _ & Hsame & _).
  - vm_compute. lia.
  - split.
    + rewrite Hmsg. vm_compute. reflexivity.
    + apply Hsame. vm_compute. reflexivity.
Defined.

(** ** Appending to the dataset file (C4) *)

Lemma json_escape_char_one_line c : one_line (json_escape_char c) = true.
Proof. destruct c as [[] [] [] [] [] [] [] []]; vm_compute; reflexivity. Qed.

Lemma one_line_app s t : one_line (s ++ t) = one_line s && one_line t.
Proof. apply forallb_app. Qed.

Lemma json_dumps_str_one_line s : one_line (json_dumps_str s) = true.
Proof.
  unfold json_dumps_str. rewrite !one_line_app.
  assert (one_line (s ≫= json_escape_char) = true) as ->; [|done].
  induction s as [|c s IH]; [done|].
  by rewrite bind_cons, one_line_app, json_escape_char_one_line, IH.
Qed.

(** A dumped record holds no line terminator and starts with a brace. *)
Lemma json_dumps_one_line p : one_line (json_dumps p) = true.
Proof.
  unfold json_dumps. rewrite !one_line_app, !json_dumps_str_one_line.
  reflexivity.
Qed.

Lemma json_dumps_head p : ∃ rest, json_dumps p = "{"%char :: rest.
Proof. eexists. reflexivity. Qed.

Lemma count_lines_from_line pending s t :
  one_line s = true →
  count_lines_from pending (s ++ LF :: t) = S (count_lines_from false t).
Proof.
  revert pending. induction s as [|c s IH]; intros pending Hs.
  - reflexivity.
  - cbn [one_line forallb] in Hs. apply andb_true_iff in Hs as [Hc Hs].
    apply negb_true_iff, orb_false_iff in Hc as [H1 H2].
    cbn [app count_lines_from]. rewrite H1, H2. by apply IH.
Qed.

Lemma count_lines_records pairs :
  count_lines (pairs ≫= λ p, json_dumps p ++ [LF]) = length pairs.
Proof.
  unfold count_lines. induction pairs as [|p pairs IH]; [done|].
  rewrite bind_cons, <- (assoc_L (++)). cbn [app].
  rewrite count_lines_from_line by apply json_dumps_one_line.
  by rewrite IH.
Qed.

Lemma ends_line_tail c s : s ≠ [] → ends_line (c :: s) → ends_line s.
Proof.
  unfold ends_line. rewrite last_cons. destruct (last s) eqn:E; [done|].
  apply last_None in E. done.
Qed.

(** Text appended after a finished line starts a line of its own. *)
Lemma count_lines_from_app pending s t :
  s ≠ [] ∨ pending = false →
  ends_line s → head t ≠ Some LF →
  count_lines_from pending (s ++ t)
  = count_lines_from pending s + count_lines_from false t.
Proof.
  intros Hs Hend Ht. revert pending Hs Hend.
  induction s as [|c s IH]; intros pending Hs Hend.
  - destruct Hs as [| ->]; done.
  - cbn [app count_lines_from].
    destruct (Ascii.eqb c LF) eqn:Elf.
    { destruct s as [|c' s'] eqn:Es; [done|]. rewrite <- Es in *.
      rewrite IH; [done|left; by subst|eapply ends_line_tail; [by subst|done]]. }
    destruct (Ascii.eqb c CR) eqn:Ecr.
    + destruct s as [|c' s']; cbn [app].
      * destruct t as [|c' t']; [done|].
        destruct (Ascii.eqb c' LF) eqn:E; [|done].
        apply Ascii.eqb_eq in E. subst. done.
      * assert (ends_line (c' :: s')) as Hend' by by eapply ends_line_tail.
        specialize (IH false (or_intror eq_refl) Hend').
        destruct (Ascii.eqb c' LF) eqn:E.
        -- cbn [app count_lines_from] in IH. rewrite E in IH. exact IH.
        -- change (c' :: s' ++ t) with ((c' :: s') ++ t). by rewrite IH.
    + destruct s as [|c' s'] eqn:Es.
      * unfold ends_line in Hend. simpl in Hend.
        apply Ascii.eqb_neq in Elf, Ecr. by destruct Hend.
      * rewrite <- Es in *.
        apply IH; [left; by subst|eapply ends_line_tail; [by subst|done]].
Qed.

Lemma save_to_jsonl_unfold pairs filename w :
  save_to_jsonl pairs filename w =
    let old := files w !! filename in
    let w1 := set_makedirs_log
                (makedirs_log w
                 ++ [match dirname filename with
                     | [] => "." : str
                     | _ => dirname filename
                     end]) w in
    let w2 := set_files
                (<[ filename := default [] old
                                ++ (pairs ≫= λ p, json_dumps p ++ [LF]) ]>
                   (files w)) w1 in
    (Returns (),
     set_stdout
       (stdout w
        ++ [status_line (length pairs) filename
              (match old with Some f => count_lines f | None => 0 end
               + length pairs)]) w2).
Proof. reflexivity. Qed.

(** C4, as amended: appending K records to a file of M lines that is empty
    or ends with a line terminator gives a file of M+K lines, and the total
    in the status line printed is M+K. *)
Theorem save_to_jsonl_counts (pairs : list pair) (filename : str) (w : world)
    (old : str) :
  files w !! filename = Some old →
  ends_line old →
  ∃ w' new,
    save_to_jsonl pairs filename w = (Returns (), w')
    ∧ files w' !! filename = Some new
    ∧ count_lines new = count_lines old + length pairs
    ∧ last (stdout w')
      = Some (status_line (length pairs) filename
                (count_lines old + length pairs)).
Proof.
  intros Hold Hend. rewrite save_to_jsonl_unfold, Hold. cbn zeta.
  do 2 eexists. split; [reflexivity|]. split; [|split].
  - cbn [files set_stdout set_files]. apply lookup_insert_eq.
  - cbn [default]. unfold count_lines.
    rewrite count_lines_from_app; [|by right|done|].
    + f_equal. apply count_lines_records.
    + destruct pairs as [|p pairs]; [done|].
      rewrite bind_cons. destruct (json_dumps_head p) as [rest ->]. done.
  - cbn [stdout set_stdout]. apply last_snoc.
Qed.

Lemma save_to_jsonl_counts_witness :
  ∃ w' new,
    save_to_jsonl
      [ {| instruction := "Cook"; input := "pasta"; output := "Boil." |};
        {| instruction := "Bake"; input := "bread"; output := "Knead." |} ]
      "out/dataset.jsonl"
      (init "example.com"
         {[ ("out/dataset.jsonl" : str) := unlines ["{}"; "{}"; EmptyString] ]})
    = (Returns (), w')
    ∧ files w' !! ("out/dataset.jsonl" : str) = Some new
    ∧ count_lines new = count_lines (unlines ["{}"; "{}"; EmptyString]) + 2
    ∧ last (stdout w')
      = Some (status_line 2 "out/dataset.jsonl"
                (count_lines (unlines ["{}"; "{}"; EmptyString]) + 2)).
Proof.
  apply (save_to_jsonl_counts
           [ {| instruction := "Cook"; input := "pasta"; output := "Boil." |};
             {| instruction := "Bake"; input := "bread"; output := "Knead." |} ]
           "out/dataset.jsonl"
           (init "example.com"
              {[ ("out/dataset.jsonl" : str)
                 := unlines ["{}"; "{}"; EmptyString] ]})
           (unlines ["{}"; "{}"; EmptyString])).
  - vm_compute. reflexivity.
  - vm_compute. left. reflexivity.
Defined.

(** C4, as stated, fails: a file whose single line lacks its terminator has
    one line, still has one line after a record is appended to it, and the
    status line reports two. *)
Lemma save_to_jsonl_unterminated_line :
  let old : str := "{}" in
  let w := init "example.com" {[ ("dataset.jsonl" : str) := old ]} in
  let w' := snd (save_to_jsonl
                   [ {| instruction := "Cook"; input := "pasta";
                        output := "Boil." |} ]
                   "dataset.jsonl" w) in
  count_lines old = 1
  ∧ (count_lines <$> files w' !! ("dataset.jsonl" : str)) = Some 1
  ∧ last (stdout w') = Some (status_line 1 "dataset.jsonl" 2).
Proof. vm_compute. done. Qed.

(** ** Who changes the visited set (C9) *)

Section Orchestration.

Variable requests_get : list str → str → get_result.
Variable http_error_msg : response → str.
Variable soup_hrefs : str → list str.
Variable soup_get_text : str → str.
Variable urljoin : str → str → str.
Variable chat_completions_create : list chat_request → chat_request → chat_result.

Local Abbreviation discover :=
  (find_recipe_links requests_get http_error_msg soup_hrefs urljoin).
Local Abbreviation scrape :=
  (scrape_website requests_get http_error_msg soup_get_text).
Local Abbreviation generate :=
  (generate_instruction_pairs chat_completions_create).
Local Abbreviation process :=
  (process_recipe requests_get http_error_msg soup_get_text
     chat_completions_create).

Lemma find_recipe_links_frame u max_links w :
  visited_urls (snd (discover u max_links w)) = visited_urls w
  ∧ base_url (snd (discover u max_links w)) = base_url w.
Proof.
  rewrite find_recipe_links_unfold. cbn zeta.
  destruct (requests_get (http_log w) u) as [msg|r];
    [|destruct ((400 <=? status_code r) && (status_code r <? 600))%Z];
    split; reflexivity.
Qed.

Lemma scrape_website_frame w :
  visited_urls (snd (scrape w)) = visited_urls w
  ∧ base_url (snd (scrape w)) = base_url w
  ∧ url (snd (scrape w)) = url w.
Proof.
  unfold scrape_website, try_except, get, raise_for_status, mbind, M_bind,
    mret, M_ret, raise, get_world, print, modify.
  destruct (url w) as [u|] eqn:Hu; cbn beta iota;
    [|by repeat split].
  destruct (requests_get (http_log w) u) as [msg|r]; cbn beta iota;
    [by repeat split|].
  destruct ((400 <=? status_code r) && (status_code r <? 600))%Z;
    by repeat split.
Qed.

(** Once the current URL is set, [scrape_website] returns. *)
Lemma scrape_website_returns w u :
  url w = Some u → ∃ t, fst (scrape w) = Returns t.
Proof.
  intros Hu.
  unfold scrape_website, try_except, get, raise_for_status, mbind, M_bind,
    mret, M_ret, raise, get_world, print, modify.
  rewrite Hu. cbn beta iota.
  destruct (requests_get (http_log w) u) as [msg|r]; [by eexists|].
  cbn beta iota.
  destruct ((400 <=? status_code r) && (status_code r <? 600))%Z; by eexists.
Qed.

Lemma generate_instruction_pairs_frame text N w :
  ∃ pairs w',
    generate text N w = (Returns pairs, w')
    ∧ visited_urls w' = visited_urls w
    ∧ base_url w' = base_url w.
Proof.
  unfold generate_instruction_pairs.
  destruct (attempts_spec chat_completions_create (Z.to_nat N) text [] w)
    as (w' & -> & _ & Hb & Hv & _).
  by do 2 eexists.
Qed.

Lemma save_to_jsonl_frame pairs filename w :
  ∃ w',
    save_to_jsonl pairs filename w = (Returns (), w')
    ∧ visited_urls w' = visited_urls w
    ∧ base_url w' = base_url w.
Proof. rewrite save_to_jsonl_unfold. by eexists. Qed.

(** One round of the orchestration loop returns, and adds its link to the
    visited set. *)
Lemma process_recipe_spec n filename u w :
  ∃ w',
    process n filename u w = (Returns (), w')
    ∧ visited_urls w' = visited_urls w ∪ {[ u ]}
    ∧ base_url w' = base_url w.
Proof.
  unfold process_recipe.
  unfold mbind at 1 2 3 4 5, M_bind at 1 2 3 4 5, print, modify at 1 2 3.
  cbn beta iota.
  set (w1 := set_visited_urls _ _).
  assert (url w1 = Some u) as Hu by done.
  destruct (scrape_website_returns w1 u Hu) as [t Ht].
  destruct (scrape_website_frame w1) as (Hv & Hb & _).
  destruct (scrape w1) as [o w2]. simpl in Ht, Hv, Hb. subst o.
  destruct t as [[|c text]|].
  1,3: by eexists.
  unfold mbind, M_bind.
  destruct (generate_instruction_pairs_frame (c :: text) n w2)
    as (pairs & w3 & -> & Hv3 & Hb3).
  destruct (save_to_jsonl_frame pairs filename w3) as (w4 & -> & Hv4 & Hb4).
  eexists. split; [reflexivity|]. simpl. split; congruence.
Qed.

Lemma for_each_process_recipe n filename links w :
  ∃ w',
    for_each links (process n filename) w = (Returns (), w')
    ∧ visited_urls w' = visited_urls w ∪ list_to_set links
    ∧ base_url w' = base_url w.
Proof.
  revert w. induction links as [|u links IH]; intros w.
  - exists w. cbn [list_to_set]. by rewrite (right_id_L ∅ (∪)).
  - cbn [for_each]. unfold mbind, M_bind.
    destruct (process_recipe_spec n filename u w) as (w1 & -> & Hv1 & Hb1).
    destruct (IH w1) as (w' & -> & Hv & Hb).
    exists w'. split; [done|]. split; [|congruence].
    rewrite Hv, Hv1. cbn [list_to_set]. by rewrite (assoc_L (∪)).
Qed.

(** A link that has been processed is not discovered again, on whatever
    page, however many other links are processed in between. *)
Lemma processed_never_rediscovered n filename u others w :
  ∃ w',
    for_each (u :: others) (process n filename) w = (Returns (), w')
    ∧ ∀ page max_links,
        ∃ links w'',
          discover page max_links w' = (Returns links, w'') ∧ u ∉ links.
Proof.
  destruct (for_each_process_recipe n filename (u :: others) w)
    as (w' & Heq & Hv & _).
  exists w'. split; [done|]. intros page max_links.
  apply find_recipe_links_not_visited. rewrite Hv. cbn [list_to_set].
  rewrite !elem_of_union, elem_of_singleton. by right; left.
Qed.

End Orchestration.

Lemma for_each_app {A} (xs ys : list A) (body : A → M unit) w w1 :
  for_each xs body w = (Returns (), w1) →
  for_each (xs ++ ys) body w = for_each ys body w1.
Proof.
  revert w. induction xs as [|x xs IH]; intros w; cbn [for_each app].
  - by intros [= ->].
  - unfold mbind, M_bind. destruct (body x w) as [[[]|e] w2]; [|done].
    apply IH.
Qed.

(** After its first three statements, a round leaves the visited set as it
    is, whether it returns or raises. *)
Lemma rest_of_round_frame
    (requests_get : list str → str → get_result)
    (http_error_msg : response → str) (soup_get_text : str → str)
    (chat_completions_create : list chat_request → chat_request → chat_result)
    (n : Z) (filename : str) (w : world) :
  visited_urls
    (snd ((text_content ←
             scrape_website requests_get http_error_msg soup_get_text;
           match text_content with
           | Some ((_ :: _) as text_content) =>
               instruction_pairs ←
                 generate_instruction_pairs chat_completions_create
                   text_content n;
               save_to_jsonl instruction_pairs filename
           | _ => mret ()
           end;;
           modify (λ w, set_slept (slept w + 2) w)) w))
  = visited_urls w.
Proof.
  unfold mbind at 1 2, M_bind at 1 2.
  destruct (scrape_website_frame requests_get http_error_msg soup_get_text w)
    as (Hv & _).
  destruct (scrape_website requests_get http_error_msg soup_get_text w)
    as [[[[|c text_content]|]|e] w2]; cbn [snd] in Hv; try done.
  unfold mbind, M_bind.
  destruct (generate_instruction_pairs_frame chat_completions_create
              (c :: text_content) n w2) as (pairs & w3 & -> & Hv3 & _).
  destruct (save_to_jsonl_frame pairs filename w3) as (w4 & -> & Hv4 & _).
  cbn. congruence.
Qed.

(** C9: [find_recipe_links] leaves the visited set and the base URL as they
    are, and so do the other methods the loop calls.  A round of the
    orchestration loop adds its link at its beginning: the rest of the
    round (scraping, generating, saving, sleeping) starts from the world in
    which the link has been printed, made the current URL and added to the
    visited set, nothing else having happened yet, and that rest does not
    touch the visited set.  So when the rounds for the first links of the
    list have returned, exactly those links have been added; a loop never
    removes a URL nor adds one that is not in its list; and a run of
    [process_multiple_recipes] that returns ends with the discovered links
    added. *)
Theorem visited_urls_changed_by_loop_only
    (requests_get : list str → str → get_result)
    (http_error_msg : response → str) (soup_hrefs : str → list str)
    (soup_get_text : str → str) (urljoin : str → str → str)
    (chat_completions_create : list chat_request → chat_request → chat_result) :
  (∀ u max_links w,
     visited_urls (snd (find_recipe_links requests_get http_error_msg
                          soup_hrefs urljoin u max_links w))
     = visited_urls w
     ∧ base_url (snd (find_recipe_links requests_get http_error_msg
                        soup_hrefs urljoin u max_links w))
       = base_url w)
  ∧ (∀ w,
       visited_urls (snd (scrape_website requests_get http_error_msg
                            soup_get_text w))
       = visited_urls w)
  ∧ (∀ text N w,
       visited_urls (snd (generate_instruction_pairs chat_completions_create
                            text N w))
       = visited_urls w)
  ∧ (∀ pairs filename w,
       visited_urls (snd (save_to_jsonl pairs filename w)) = visited_urls w)
  ∧ (∀ n filename,
       let rest : M unit :=
         text_content ←
           scrape_website requests_get http_error_msg soup_get_text;
         match text_content with
         | Some ((_ :: _) as text_content) =>
             instruction_pairs ←
               generate_instruction_pairs chat_completions_create
                 text_content n;
             save_to_jsonl instruction_pairs filename
         | _ => mret ()
         end;;
         modify (λ w, set_slept (slept w + 2) w) in
       (∀ u w,
          process_recipe requests_get http_error_msg soup_get_text
            chat_completions_create n filename u w
          = rest (set_visited_urls (visited_urls w ∪ {[ u ]})
                    (set_url u
                       (set_stdout (stdout w ++ ["Processing recipe: " ++ u])
                          w))))
       ∧ (∀ w, visited_urls (snd (rest w)) = visited_urls w))
  ∧ (∀ n filename processed remaining w w1,
       for_each processed
         (process_recipe requests_get http_error_msg soup_get_text
            chat_completions_create n filename) w = (Returns (), w1) →
       visited_urls w1 = visited_urls w ∪ list_to_set processed
       ∧ for_each (processed ++ remaining)
           (process_recipe requests_get http_error_msg soup_get_text
              chat_completions_create n filename) w
         = for_each remaining
             (process_recipe requests_get http_error_msg soup_get_text
                chat_completions_create n filename) w1)
  ∧ (∀ n filename links w,
       visited_urls w
       ⊆ visited_urls
           (snd (for_each links
                   (process_recipe requests_get http_error_msg soup_get_text
                      chat_completions_create n filename) w))
       ∧ visited_urls
           (snd (for_each links
                   (process_recipe requests_get http_error_msg soup_get_text
                      chat_completions_create n filename) w))
         ⊆ visited_urls w ∪ list_to_set links)
  ∧ (∀ n max_recipes filename w links w1 w',
       find_recipe_links requests_get http_error_msg soup_hrefs urljoin
         (base_url w) max_recipes w = (Returns links, w1) →
       process_multiple_recipes requests_get http_error_msg soup_hrefs
         soup_get_text urljoin chat_completions_create
         n max_recipes filename w = (Returns (), w') →
       visited_urls w' = visited_urls w ∪ list_to_set links
       ∧ base_url w' = base_url w).
Proof.
  repeat apply conj.
  - intros u max_links w. apply find_recipe_links_frame.
  - intros w. apply scrape_website_frame.
  - intros text N w.
    destruct (generate_instruction_pairs_frame chat_completions_create text N w)
      as (pairs & w' & -> & Hv & _).
    done.
  - intros pairs filename w.
    destruct (save_to_jsonl_frame pairs filename w) as (w' & -> & Hv & _).
    done.
  - intros n filename rest. split; [done|].
    intros w. apply rest_of_round_frame.
  - intros n filename processed remaining w w1 Heq.
    destruct (for_each_process_recipe requests_get http_error_msg soup_get_text
                chat_completions_create n filename processed w)
      as (w1' & Heq1 & Hv1 & _).
    rewrite Heq in Heq1. injection Heq1 as <-.
    split; [done|]. by apply for_each_app.
  - intros n filename links w.
    destruct (for_each_process_recipe requests_get http_error_msg soup_get_text
                chat_completions_create n filename links w)
      as (w' & -> & Hv & _).
    cbn [snd]. rewrite Hv. split; [apply union_subseteq_l|done].
  - intros n max_recipes filename w links w1 w' Hlinks.
    unfold process_multiple_recipes, mbind, M_bind, get_world.
    destruct (find_recipe_links_frame requests_get http_error_msg soup_hrefs
                urljoin (base_url w) max_recipes w) as [Hv1 Hb1].
    rewrite Hlinks in Hv1, Hb1 |- *. cbn [snd] in Hv1, Hb1.
    destruct (for_each_process_recipe requests_get http_error_msg soup_get_text
                chat_completions_create n filename links w1)
      as (w'' & -> & Hv & Hb).
    intros [= <-]. split; congruence.
Qed.

Lemma visited_urls_changed_by_loop_only_witness :
  ∃ w',
    process_multiple_recipes (Example.serves "Soup of the day")
      Example.error_msg (Example.anchors ["/recipes/soup" : str]) (λ t, t)
      Example.join_path (Example.answers []) 1 10 "dataset.jsonl"
      (init "https://example.com" ∅) = (Returns (), w')
    ∧ visited_urls w'
      = ∅ ∪ list_to_set ["https://example.com/recipes/soup" : str]
    ∧ base_url w' = "https://example.com".
Proof.
  destruct (process_multiple_recipes (Example.serves "Soup of the day")
              Example.error_msg (Example.anchors ["/recipes/soup" : str])
              (λ t, t) Example.join_path (Example.answers []) 1 10
              "dataset.jsonl" (init "https://example.com" ∅))
    as [o w'] eqn:Hrun.
  assert (o = Returns ()) as ->.
  { apply (f_equal fst) in Hrun. vm_compute in Hrun. congruence. }
  exists w'. split; [reflexivity|].
  apply (proj2 (proj2 (proj2 (proj2 (proj2 (proj2 (proj2
           (visited_urls_changed_by_loop_only
              (Example.serves "Soup of the day") Example.error_msg
              (Example.anchors ["/recipes/soup" : str]) (λ t, t)
              Example.join_path (Example.answers []))))))))
           1%Z 10%Z "dataset.jsonl" (init "https://example.com" ∅)
           ["https://example.com/recipes/soup" : str]
           (set_http_log ["https://example.com" : str]
              (init "https://example.com" ∅))
           w').
  - vm_compute. reflexivity.
  - exact Hrun.
Defined.

(** A whole run, evaluated: two links are found and processed in the order
    in which the set lists them; the first page cannot be scraped, the
    second gives one record; both links end up visited. *)
Lemma process_multiple_recipes_run :
  let run :=
    process_multiple_recipes
      (λ log _, match log with
                | [_] => GetRaises "timed out"
                | _ => GetReturns {| status_code := 200; text := "<html>" |}
                end)
      Example.error_msg
      (Example.anchors ["/recipe/pasta" : str; "/about" : str;
                        "/recipes/soup" : str])
      (λ _, "Soup of the day" : str) Example.join_path
      (Example.answers
         [ChatReturns (Some ("INSTRUCTION: Cook INPUT: soup OUTPUT: Stir." : str))])
      1 10 "out/data.jsonl"
      (init "https://example.com" ∅) in
  fst run = Returns ()
  ∧ elements (visited_urls (snd run))
    ≡ₚ ["https://example.com/recipe/pasta" : str;
        "https://example.com/recipes/soup" : str]
  ∧ files (snd run) !! ("out/data.jsonl" : str)
    = Some (json_dumps {| instruction := "Cook"; input := "soup";
                          output := "Stir." |} ++ [LF])
  ∧ http_log (snd run)
    = [ "https://example.com" : str;
        "https://example.com/recipes/soup" : str;
        "https://example.com/recipe/pasta" : str ]
  ∧ (content <$> last (messages (default (request_for []) (last (chat_log (snd run))))))
    = Some (user_message "Soup of the day")
  ∧ slept (snd run) = 4%Z.
Proof.
  vm_compute. repeat split; try reflexivity. apply perm_swap.
Qed.

(** ** More about link discovery *)

Section DiscoveryMore.

Variable requests_get : list str → str → get_result.
Variable http_error_msg : response → str.
Variable soup_hrefs : str → list str.
Variable urljoin : str → str → str.

Local Abbreviation scan := (scan_links urljoin).
Local Abbreviation discover :=
  (find_recipe_links requests_get http_error_msg soup_hrefs urljoin).

(** The check against the maximum comes after a link is added, so the loop
    lets one link through even when the maximum is below one. *)
Lemma scan_links_size_max self u max_links hrefs recipe_links :
  (Z.of_nat (size recipe_links) < Z.max 1 max_links)%Z →
  (Z.of_nat (size (scan self u max_links hrefs recipe_links))
   ≤ Z.max 1 max_links)%Z.
Proof.
  revert recipe_links.
  induction hrefs as [|href rest IH]; intros acc Hlt; cbn [scan_links]; [lia|].
  destruct (keeps self (absolute urljoin u href)); [|by apply IH].
  destruct (Z.geb_spec (Z.of_nat (size (acc ∪ {[absolute urljoin u href]})))
              max_links) as [Hge|Hlt'].
  - pose proof (size_union_alt acc {[absolute urljoin u href]}) as Hsz.
    assert (size ({[absolute urljoin u href]} ∖ acc : gset str) ≤ 1).
    { rewrite <- (size_singleton (C:=gset str) (absolute urljoin u href)).
      apply subseteq_size, subseteq_difference_l. done. }
    lia.
  - apply IH. lia.
Qed.

(** When the loop ends below the maximum, it has not stopped early: every
    link that passes the filter has been added. *)
Lemma scan_links_below_max self u max_links hrefs recipe_links :
  (Z.of_nat (size (scan self u max_links hrefs recipe_links)) < max_links)%Z →
  scan self u max_links hrefs recipe_links
  = recipe_links
    ∪ list_to_set (filter (λ x, keeps self x = true)
                     (absolute urljoin u <$> hrefs)).
Proof.
  revert recipe_links.
  induction hrefs as [|href rest IH]; intros acc; cbn [scan_links].
  - intros _. cbn. by rewrite (right_id_L ∅ (∪)).
  - rewrite fmap_cons, filter_cons.
    destruct (keeps self (absolute urljoin u href)) eqn:Hk.
    + rewrite decide_True by done.
      destruct (Z.geb_spec (Z.of_nat (size (acc ∪ {[absolute urljoin u href]})))
                  max_links) as [Hge|Hlt']; [lia|].
      intros Hlt. rewrite (IH _ Hlt). cbn [list_to_set].
      by rewrite (assoc_L (∪)).
    + rewrite decide_False by (by intros ?). apply IH.
Qed.

End DiscoveryMore.

(** X1: the list returned by [find_recipe_links] has no duplicates, however
    often the page repeats an anchor. *)
Theorem find_recipe_links_no_duplicates
    (requests_get : list str → str → get_result)
    (http_error_msg : response → str) (soup_hrefs : str → list str)
    (urljoin : str → str → str) (u : str) (max_links : Z) (w : world) :
  ∃ links w',
    find_recipe_links requests_get http_error_msg soup_hrefs urljoin
      u max_links w = (Returns links, w')
    ∧ NoDup links.
Proof.
  rewrite find_recipe_links_unfold. cbn zeta.
  destruct (requests_get (http_log w) u) as [msg|r];
    [|destruct ((400 <=? status_code r) && (status_code r <? 600))%Z];
    do 2 eexists; (split; [reflexivity|]);
    (apply NoDup_nil_2 || apply NoDup_elements).
Qed.

(** X2: for every maximum, also zero or a negative one, the list returned
    is no longer than the larger of one and the maximum. *)
Theorem find_recipe_links_length
    (requests_get : list str → str → get_result)
    (http_error_msg : response → str) (soup_hrefs : str → list str)
    (urljoin : str → str → str) (u : str) (max_links : Z) (w : world) :
  ∃ links w',
    find_recipe_links requests_get http_error_msg soup_hrefs urljoin
      u max_links w = (Returns links, w')
    ∧ (Z.of_nat (length links) ≤ Z.max 1 max_links)%Z.
Proof.
  rewrite find_recipe_links_unfold. cbn zeta.
  destruct (requests_get (http_log w) u) as [msg|r];
    [|destruct ((400 <=? status_code r) && (status_code r <? 600))%Z];
    do 2 eexists; (split; [reflexivity|]); [simpl; lia..|].
  rewrite size_elements. apply scan_links_size_max. rewrite size_empty. lia.
Qed.

(** X3: when the page is fetched and fewer links than the maximum are
    returned, none was left out: every anchor of the page whose resolved
    form passes the filter is in the list. *)
Theorem find_recipe_links_complete
    (requests_get : list str → str → get_result)
    (http_error_msg : response → str) (soup_hrefs : str → list str)
    (urljoin : str → str → str) (u : str) (max_links : Z) (w : world)
    (r : response) (links : list str) (w' : world) :
  requests_get (http_log w) u = GetReturns r →
  ¬ (400 ≤ status_code r < 600)%Z →
  find_recipe_links requests_get http_error_msg soup_hrefs urljoin
    u max_links w = (Returns links, w') →
  (Z.of_nat (length links) < max_links)%Z →
  ∀ href, href ∈ soup_hrefs (text r) →
          keeps w (absolute urljoin u href) = true →
          absolute urljoin u href ∈ links.
Proof.
  intros Hget Hst. rewrite find_recipe_links_unfold, Hget. cbn zeta.
  assert (((400 <=? status_code r) && (status_code r <? 600))%Z = false) as ->.
  { apply andb_false_iff. lia. }
  intros [= <- <-] Hlen href Hin Hk.
  rewrite size_elements in Hlen.
  apply elem_of_elements. rewrite (scan_links_below_max _ _ _ _ _ _ Hlen).
  apply elem_of_union_r, elem_of_list_to_set, list_elem_of_filter.
  split; [done|]. by apply list_elem_of_fmap_2.
Qed.

Lemma find_recipe_links_complete_witness :
  ("https://example.com/recipes/soup" : str)
  ∈ [ "https://example.com/recipes/soup" : str;
      "https://example.com/recipe/pasta" : str ].
Proof.
  change ("https://example.com/recipes/soup" : str)
    with (absolute Example.join_path "https://example.com/" "/recipes/soup")
    at 1.
  apply (find_recipe_links_complete
           (Example.serves "<html>") Example.error_msg
           (Example.anchors ["/recipe/pasta" : str; "/about" : str;
                             "/recipes/soup" : str])
           Example.join_path "https://example.com/" 10 (init "example.com" ∅)
           {| status_code := 200; text := "<html>" |}
           [ "https://example.com/recipes/soup" : str;
             "https://example.com/recipe/pasta" : str ]
           (set_http_log ["https://example.com/" : str] (init "example.com" ∅))
           eq_refl).
  - simpl. lia.
  - vm_compute. reflexivity.
  - simpl. lia.
  - right. right. left.
  - vm_compute. reflexivity.
Defined.

(** ** Scraping a page *)

Lemma scrape_website_unfold
    (requests_get : list str → str → get_result)
    (http_error_msg : response → str) (soup_get_text : str → str)
    (w : world) (u : str) :
  url w = Some u →
  scrape_website requests_get http_error_msg soup_get_text w =
    let w' := set_http_log (http_log w ++ [u]) w in
    match requests_get (http_log w) u with
    | GetRaises msg =>
        (Returns None,
         set_stdout (stdout w' ++ ["Error scraping website: " ++ msg]) w')
    | GetReturns r =>
        if ((400 <=? status_code r) && (status_code r <? 600))%Z
        then (Returns None,
              set_stdout (stdout w' ++ ["Error scraping website: "
                                        ++ http_error_msg r]) w')
        else (Returns (Some (soup_get_text (text r))), w')
    end.
Proof.
  intros Hu.
  unfold scrape_website, try_except, get, raise_for_status, mbind, M_bind,
    mret, M_ret, raise, get_world, print, modify.
  rewrite Hu. cbn beta iota zeta.
  destruct (requests_get (http_log w) u) as [msg|r]; [done|]. cbn beta iota.
  by destruct ((400 <=? status_code r) && (status_code r <? 600))%Z.
Qed.

(** X4: with the current URL set, when [requests.get] raises a
    [RequestException], or the response has a client or server error status
    (400 to 599), [scrape_website] catches the exception: the request has
    been made, one line with the message of that exception is printed,
    nothing else changes and [None] is returned. *)
Theorem scrape_website_request_failure
    (requests_get : list str → str → get_result)
    (http_error_msg : response → str) (soup_get_text : str → str)
    (w : world) (u : str) :
  url w = Some u →
  (∀ msg,
     requests_get (http_log w) u = GetRaises msg →
     is_RequestException (ConnectionError msg) = true
     ∧ scrape_website requests_get http_error_msg soup_get_text w
       = (Returns None,
          set_stdout
            (stdout w ++ ["Error scraping website: "
                          ++ exn_str (ConnectionError msg)])
            (set_http_log (http_log w ++ [u]) w)))
  ∧ (∀ r,
       requests_get (http_log w) u = GetReturns r →
       (400 ≤ status_code r < 600)%Z →
       is_RequestException (HTTPError (http_error_msg r)) = true
       ∧ scrape_website requests_get http_error_msg soup_get_text w
         = (Returns None,
            set_stdout
              (stdout w ++ ["Error scraping website: "
                            ++ exn_str (HTTPError (http_error_msg r))])
              (set_http_log (http_log w ++ [u]) w))).
Proof.
  intros Hu. split.
  - intros msg Hget. split; [done|].
    by rewrite (scrape_website_unfold _ _ _ _ _ Hu), Hget.
  - intros r Hget Hst. split; [done|].
    rewrite (scrape_website_unfold _ _ _ _ _ Hu), Hget. cbn zeta.
    assert (((400 <=? status_code r) && (status_code r <? 600))%Z = true) as ->
      by (apply andb_true_iff; split; lia).
    done.
Qed.

Lemma scrape_website_request_failure_witness :
  scrape_website Example.not_found Example.error_msg (λ t, t)
    (set_url "https://example.com/recipe/pasta" (init "example.com" ∅))
  = (Returns None,
     set_stdout ["Error scraping website: Client Error" : str]
       (set_http_log ["https://example.com/recipe/pasta" : str]
          (set_url "https://example.com/recipe/pasta"
             (init "example.com" ∅)))).
Proof.
  apply (proj2 (scrape_website_request_failure Example.not_found
                  Example.error_msg (λ t, t)
                  (set_url "https://example.com/recipe/pasta"
                     (init "example.com" ∅))
                  "https://example.com/recipe/pasta" eq_refl)
           {| status_code := 404; text := [] |}).
  - reflexivity.
  - simpl. lia.
Defined.

(** X5: with the current URL set, when the request gives a response
    without error status, [scrape_website] returns the text extracted from
    it, also when that text is empty; nothing is printed, and the world
    changes by the one request only. *)
Theorem scrape_website_success
    (requests_get : list str → str → get_result)
    (http_error_msg : response → str) (soup_get_text : str → str)
    (w : world) (u : str) (r : response) :
  url w = Some u →
  requests_get (http_log w) u = GetReturns r →
  ¬ (400 ≤ status_code r < 600)%Z →
  scrape_website requests_get http_error_msg soup_get_text w
  = (Returns (Some (soup_get_text (text r))),
     set_http_log (http_log w ++ [u]) w).
Proof.
  intros Hu Hget Hst.
  rewrite (scrape_website_unfold _ _ _ _ _ Hu), Hget. cbn zeta.
  assert (((400 <=? status_code r) && (status_code r <? 600))%Z = false) as ->.
  { apply andb_false_iff. lia. }
  done.
Qed.

Lemma scrape_website_success_witness :
  scrape_website (Example.serves "Soup of the day") Example.error_msg (λ t, t)
    (set_url "https://example.com/recipes/soup" (init "example.com" ∅))
  = (Returns (Some ("Soup of the day" : str)),
     set_http_log ([] ++ ["https://example.com/recipes/soup" : str])
       (set_url "https://example.com/recipes/soup" (init "example.com" ∅))).
Proof.
  apply (scrape_website_success (Example.serves "Soup of the day")
           Example.error_msg (λ t, t)
           (set_url "https://example.com/recipes/soup" (init "example.com" ∅))
           "https://example.com/recipes/soup"
           {| status_code := 200; text := "Soup of the day" |}).
  - reflexivity.
  - reflexivity.
  - simpl. lia.
Defined.

(** X6: while the current URL is not set, as on a scraper that has not run
    [process_multiple_recipes], [scrape_website] raises an [AttributeError]
    that its handler does not catch; no request is made and nothing is
    printed. *)
Theorem scrape_website_url_unset
    (requests_get : list str → str → get_result)
    (http_error_msg : response → str) (soup_get_text : str → str)
    (w : world) :
  url w = None →
  ∃ msg,
    scrape_website requests_get http_error_msg soup_get_text w
    = (Raises (AttributeError msg), w).
Proof.
  intros Hu.
  unfold scrape_website, try_except, get, raise_for_status, mbind, M_bind,
    mret, M_ret, raise, get_world, print, modify.
  rewrite Hu. by eexists.
Qed.

Lemma scrape_website_url_unset_witness :
  ∃ msg,
    scrape_website (Example.serves "Soup of the day") Example.error_msg
      (λ t, t) (init "example.com" ∅)
    = (Raises (AttributeError msg), init "example.com" ∅).
Proof. apply scrape_website_url_unset. reflexivity. Defined.

(** ** More about parsing a reply *)

Lemma occurrences_app_le sub s t :
  Py.occurrences sub s ≤ Py.occurrences sub (s ++ t).
Proof.
  induction s as [|c s IH].
  - cbn [app Py.occurrences]. destruct (Py.startswith sub []) eqn:E; [|lia].
    apply startswith_true, prefix_nil_inv in E. subst.
    destruct t; cbn [Py.occurrences]; rewrite ?(startswith_app [] _); simpl; lia.
  - change ((c :: s) ++ t) with (c :: (s ++ t)). cbn [Py.occurrences].
    destruct (Py.startswith sub (c :: s)) eqn:E; [|lia].
    apply startswith_true in E.
    change (c :: s ++ t) with ((c :: s) ++ t).
    rewrite (proj2 (startswith_true _ _) (prefix_app_r _ _ t E)). lia.
Qed.

Lemma contains_false_occurrences sub s :
  Py.contains sub s = false ↔ Py.occurrences sub s = 0.
Proof.
  induction s as [|c s IH]; cbn [Py.contains Py.occurrences].
  - destruct (Py.startswith sub []); simpl; split; (done || lia).
  - destruct (Py.startswith sub (c :: s)); simpl; [split; (done || lia)|].
    done.
Qed.

(** A text contains a label at least as often as any part of it does. *)
Lemma occurrences_infix sub p s q :
  Py.occurrences sub s ≤ Py.occurrences sub (p ++ s ++ q).
Proof.
  etrans; [apply (occurrences_app_le sub s q)|apply occurrences_app_ge].
Qed.

Lemma strip_infix s : ∃ p q, s = p ++ Py.strip s ++ q.
Proof.
  unfold Py.strip.
  destruct (lstrip_suffix s) as [p Hp].
  destruct (rstrip_prefix (Py.lstrip s)) as [q Hq].
  exists p, q. by rewrite <- Hq.
Qed.

Lemma strip_no_label sub s :
  Py.occurrences sub s = 0 → Py.contains sub (Py.strip s) = false.
Proof.
  intros Hs. apply contains_false_occurrences.
  destruct (strip_infix s) as (p & q & Heq).
  pose proof (occurrences_infix sub p (Py.strip s) q) as Hle.
  rewrite <- Heq in Hle. lia.
Qed.

(** Two pieces come from one occurrence of the separator. *)
Lemma split_two_inv L s x y :
  unbordered L → L ≠ [] →
  Py.split L s = [x; y] →
  s = x ++ L ++ y ∧ Py.occurrences L x = 0 ∧ Py.occurrences L y = 0.
Proof.
  intros HL Hne Hsplit.
  pose proof (split_length L HL Hne s) as Hlen. rewrite Hsplit in Hlen.
  cbn [length] in Hlen.
  rewrite split_unfold in Hsplit by done.
  destruct (Py.find L s) as [i|] eqn:Ef; [|done].
  destruct (find_Some_decompose _ _ _ Ef) as [Hs _].
  injection Hsplit as Hx Hy.
  rewrite split_unfold in Hy by done.
  destruct (Py.find L (drop (i + length L) s)) as [j|] eqn:Ej.
  { injection Hy as _ Hy. by apply split_nonempty in Hy. }
  injection Hy as Hy. rewrite Hx, Hy in Hs.
  split; [done|].
  rewrite Hs, (occurrences_app_label L HL Hne) in Hlen. lia.
Qed.

(** What a reply that parses looks like. *)
Lemma parse_reply_Some_inv reply p :
  parse_reply reply = Some p →
  ∃ a b c,
    reply = labelled a b c
    ∧ Py.occurrences "INPUT:" a = 0
    ∧ Py.occurrences "INPUT:" (b ++ "OUTPUT:" ++ c) = 0
    ∧ Py.occurrences "OUTPUT:" b = 0
    ∧ Py.occurrences "OUTPUT:" c = 0
    ∧ p = {| instruction := Py.strip (Py.replace "INSTRUCTION:" [] a);
             input := Py.strip b;
             output := Py.strip c |}.
Proof.
  unfold parse_reply.
  destruct (Py.split "INPUT:" reply) as [|a [|rest [|? ?]]] eqn:Hin; try done.
  destruct (Py.split "OUTPUT:" rest) as [|b [|c [|? ?]]] eqn:Hout; try done.
  intros [= <-].
  apply (split_two_inv _ _ _ _ INPUT_unbordered) in Hin as (-> & Ha & Hrest);
    [|done].
  apply (split_two_inv _ _ _ _ OUTPUT_unbordered) in Hout as (-> & Hb & Hc);
    [|done].
  by exists a, b, c.
Qed.

(** X7: a reply gives a record exactly when [INPUT:] occurs once in it and
    [OUTPUT:] occurs once after that [INPUT:]; what stands before [INPUT:],
    further [OUTPUT:] labels included, goes to the instruction, and the
    record is made of the three texts around the two labels. *)
Theorem parse_reply_Some_iff (reply : str) (p : pair) :
  parse_reply reply = Some p
  ↔ ∃ a b c,
      reply = labelled a b c
      ∧ Py.occurrences "INPUT:" reply = 1
      ∧ Py.occurrences "OUTPUT:" (b ++ "OUTPUT:" ++ c) = 1
      ∧ p = {| instruction := Py.strip (Py.replace "INSTRUCTION:" [] a);
               input := Py.strip b;
               output := Py.strip c |}.
Proof.
  split.
  - intros (a & b & c & -> & Ha & Hrest & Hb & Hc & ->)%parse_reply_Some_inv.
    exists a, b, c. split; [done|]. unfold labelled.
    rewrite (occurrences_app_label _ INPUT_unbordered) by done.
    rewrite (occurrences_app_label _ OUTPUT_unbordered) by done.
    repeat split; lia.
  - intros (a & b & c & -> & Hin & Hout & ->). unfold labelled in *.
    rewrite (occurrences_app_label _ INPUT_unbordered) in Hin by done.
    rewrite (occurrences_app_label _ OUTPUT_unbordered) in Hout by done.
    unfold parse_reply.
    rewrite (split_app_label _ INPUT_unbordered) by (done || lia).
    rewrite split_no_occurrence by (done || lia).
    rewrite (split_app_label _ OUTPUT_unbordered) by (done || lia).
    rewrite split_no_occurrence by (done || lia).
    done.
Qed.

Lemma parse_reply_Some_iff_witness :
  parse_reply "see OUTPUT: below INPUT: pasta OUTPUT: Boil it."
  = Some {| instruction := "see OUTPUT: below"; input := "pasta";
            output := "Boil it." |}.
Proof.
  apply parse_reply_Some_iff.
  exists ("see OUTPUT: below " : str), (" pasta " : str), (" Boil it." : str).
  vm_compute. repeat split; reflexivity.
Defined.

(** ** More about generating pairs *)

Section GenerationMore.

Variable chat_completions_create : list chat_request → chat_request → chat_result.

Local Abbreviation answer := chat_completions_create.

(** All that one round does to the world. *)
Lemma attempt_effects text acc w :
  ∃ w',
    attempt answer text acc w
    = (Returns (acc ++ yield (answer (chat_log w) (request_for text))), w')
    ∧ stdout w'
      = stdout w ++ complaint (answer (chat_log w) (request_for text))
    ∧ chat_log w' = chat_log w ++ [request_for text]
    ∧ http_log w' = http_log w
    ∧ files w' = files w
    ∧ makedirs_log w' = makedirs_log w
    ∧ slept w' = slept w
    ∧ visited_urls w' = visited_urls w
    ∧ base_url w' = base_url w.
Proof.
  unfold attempt, try_except, create, mbind, M_bind, mret, M_ret, raise,
    print, modify.
  destruct (answer (chat_log w) (request_for text)) as [msg|[c|]];
    cbn [yield complaint is_Exception].
  - eexists. rewrite app_nil_r. repeat split; reflexivity.
  - eexists.
    split; [by destruct (parse_reply c); cbn [option_list]; rewrite ?app_nil_r|].
    cbn [stdout set_chat_log]. rewrite app_nil_r. repeat split; reflexivity.
  - eexists. rewrite app_nil_r. repeat split; reflexivity.
Qed.

Lemma attempts_effects n text acc w :
  ∃ w',
    attempts answer n text acc w
    = (Returns
         (acc ++ (seq 0 n ≫= λ i,
                    yield (answer (chat_log w ++ replicate i (request_for text))
                             (request_for text)))),
       w')
    ∧ stdout w'
      = stdout w
        ++ (seq 0 n ≫= λ i,
              complaint (answer (chat_log w ++ replicate i (request_for text))
                           (request_for text)))
    ∧ chat_log w' = chat_log w ++ replicate n (request_for text)
    ∧ http_log w' = http_log w
    ∧ files w' = files w
    ∧ makedirs_log w' = makedirs_log w
    ∧ slept w' = slept w
    ∧ visited_urls w' = visited_urls w
    ∧ base_url w' = base_url w.
Proof.
  revert acc w. induction n as [|n IH]; intros acc w.
  - exists w. cbn [attempts replicate seq]. rewrite !app_nil_r.
    by repeat split.
  - cbn [attempts]. unfold mbind at 1, M_bind at 1.
    destruct (attempt_effects text acc w)
      as (w1 & -> & Hout & Hlog & Hh & Hf & Hm & Hs & Hv & Hb).
    destruct (IH (acc ++ yield (answer (chat_log w) (request_for text))) w1)
      as (w' & -> & Hout' & Hlog' & Hh' & Hf' & Hm' & Hs' & Hv' & Hb').
    assert (∀ {B} (f : chat_result → list B),
              f (answer (chat_log w) (request_for text))
              ++ (seq 0 n ≫= λ i,
                    f (answer (chat_log w1 ++ replicate i (request_for text))
                         (request_for text)))
              = seq 0 (S n) ≫= λ i,
                  f (answer (chat_log w ++ replicate i (request_for text))
                       (request_for text))) as Hshift.
    { intros B f. rewrite <- cons_seq, <- fmap_S_seq, bind_cons.
      cbn [replicate]. rewrite app_nil_r, list_fmap_bind.
      f_equal. apply list_bind_ext; [|done].
      intros i. cbn [compose replicate].
      rewrite Hlog, <- (assoc_L (++)). done. }
    exists w'. split; [|repeat split; try congruence].
    + do 2 f_equal. rewrite <- (assoc_L (++)). f_equal. apply Hshift.
    + rewrite Hout', Hout, <- (assoc_L (++)). f_equal. apply Hshift.
    + rewrite Hlog', Hlog, <- (assoc_L (++)). done.
Qed.

(** The fields of a record that [parse_reply] builds. *)
Lemma parse_reply_fields reply p :
  parse_reply reply = Some p →
  trimmed (instruction p) ∧ trimmed (input p) ∧ trimmed (output p)
  ∧ Py.contains "INPUT:" (input p) = false
  ∧ Py.contains "OUTPUT:" (input p) = false
  ∧ Py.contains "INPUT:" (output p) = false
  ∧ Py.contains "OUTPUT:" (output p) = false.
Proof.
  intros (a & b & c & -> & Ha & Hrest & Hb & Hc & ->)%parse_reply_Some_inv.
  cbn [instruction input output].
  pose proof (occurrences_app_le "INPUT:" b ("OUTPUT:" ++ c)) as Hib.
  pose proof (occurrences_app_ge "INPUT:" (b ++ "OUTPUT:") c) as Hic.
  rewrite <- (assoc_L (++)) in Hic.
  repeat split; try apply strip_trimmed; apply strip_no_label; lia.
Qed.

End GenerationMore.

(** X8: every record that [generate_instruction_pairs] returns has its
    three fields free of whitespace at both ends, and neither its input nor
    its output contains the label [INPUT:] or the label [OUTPUT:]. *)
Theorem generated_pairs_fields
    (chat_completions_create : list chat_request → chat_request → chat_result)
    (text_content : str) (N : Z) (w w' : world) (pairs : list pair) (p : pair) :
  generate_instruction_pairs chat_completions_create text_content N w
  = (Returns pairs, w') →
  p ∈ pairs →
  trimmed (instruction p) ∧ trimmed (input p) ∧ trimmed (output p)
  ∧ Py.contains "INPUT:" (input p) = false
  ∧ Py.contains "OUTPUT:" (input p) = false
  ∧ Py.contains "INPUT:" (output p) = false
  ∧ Py.contains "OUTPUT:" (output p) = false.
Proof.
  unfold generate_instruction_pairs.
  destruct (attempts_effects chat_completions_create (Z.to_nat N) text_content
              [] w) as (w1 & -> & _).
  rewrite app_nil_l. intros [= <- _] (i & Hp & _)%list_elem_of_bind.
  unfold yield in Hp.
  destruct (chat_completions_create _ _) as [msg|[c|]];
    try (by apply elem_of_nil in Hp).
  destruct (parse_reply c) as [q|] eqn:Hq; [|by apply elem_of_nil in Hp].
  apply list_elem_of_singleton in Hp as ->.
  by eapply parse_reply_fields.
Qed.

Lemma generated_pairs_fields_witness :
  let p := {| instruction := "Cook"; input := "pasta"; output := "Boil." |} in
  trimmed (instruction p) ∧ trimmed (input p) ∧ trimmed (output p)
  ∧ Py.contains "INPUT:" (input p) = false
  ∧ Py.contains "OUTPUT:" (input p) = false
  ∧ Py.contains "INPUT:" (output p) = false
  ∧ Py.contains "OUTPUT:" (output p) = false.
Proof.
  apply (generated_pairs_fields
           (Example.answers
              [ChatReturns (Some ("INSTRUCTION: Cook INPUT: pasta OUTPUT: Boil. " : str))])
           "Spaghetti carbonara" 1 (init "example.com" ∅)
           (set_chat_log [request_for "Spaghetti carbonara"]
              (init "example.com" ∅))
           [ {| instruction := "Cook"; input := "pasta"; output := "Boil." |} ]).
  - vm_compute. reflexivity.
  - left.
Defined.

(** X9: [generate_instruction_pairs] prints one line for each request that
    raises or comes back without content, and none for a reply of the wrong
    shape, which is dropped silently; it makes no HTTP request and touches
    no file. *)
Theorem generate_instruction_pairs_prints
    (chat_completions_create : list chat_request → chat_request → chat_result)
    (text_content : str) (N : Z) (w : world) :
  ∃ pairs w',
    generate_instruction_pairs chat_completions_create text_content N w
    = (Returns pairs, w')
    ∧ stdout w'
      = stdout w
        ++ (seq 0 (Z.to_nat N) ≫= λ i,
              complaint (chat_completions_create
                           (chat_log w ++ replicate i (request_for text_content))
                           (request_for text_content)))
    ∧ http_log w' = http_log w
    ∧ files w' = files w.
Proof.
  unfold generate_instruction_pairs.
  destruct (attempts_effects chat_completions_create (Z.to_nat N) text_content
              [] w) as (w' & -> & Hout & _ & Hh & Hf & _).
  by do 2 eexists.
Qed.

(** For a count of zero or below, [generate_instruction_pairs] returns
    the empty list without sending a request or changing anything. *)
Theorem generate_instruction_pairs_no_rounds
    (chat_completions_create : list chat_request → chat_request → chat_result)
    (text_content : str) (N : Z) (w : world) :
  (N ≤ 0)%Z →
  generate_instruction_pairs chat_completions_create text_content N w
  = (Returns [], w).
Proof.
  intros HN. unfold generate_instruction_pairs.
  by replace (Z.to_nat N) with 0 by lia.
Qed.

Lemma generate_instruction_pairs_no_rounds_witness :
  generate_instruction_pairs
    (Example.answers
       [ChatReturns (Some ("INSTRUCTION: Cook INPUT: pasta OUTPUT: Boil." : str))])
    "Spaghetti carbonara" (-3) (init "example.com" ∅)
  = (Returns [], init "example.com" ∅).
Proof. apply generate_instruction_pairs_no_rounds. lia. Defined.

(** ** More about the dataset file *)

Lemma LF_unbordered : unbordered [LF].
Proof. intros k Hk. simpl in Hk. lia. Qed.

Lemma startswith_LF c s : Py.startswith [LF] (c :: s) = Ascii.eqb c LF.
Proof.
  destruct (Ascii.eqb_spec c LF) as [->|Hne].
  - apply startswith_true. by exists s.
  - apply startswith_false. intros [k Hk]. by injection Hk.
Qed.

Lemma one_line_no_LF s : one_line s = true → Py.occurrences [LF] s = 0.
Proof.
  induction s as [|c s IH]; [done|].
  cbn [one_line forallb]. intros [Hc Hs]%andb_true_iff.
  apply negb_true_iff, orb_false_iff in Hc as [Hc _].
  cbn [Py.occurrences]. rewrite startswith_LF, Hc. by rewrite (IH Hs).
Qed.

(** Cutting the appended text at the line feeds gives the records back. *)
Lemma split_records pairs :
  Py.split [LF] (pairs ≫= λ p, json_dumps p ++ [LF])
  = (json_dumps <$> pairs) ++ [[]].
Proof.
  induction pairs as [|p pairs IH]; [done|].
  rewrite bind_cons, fmap_cons, <- (assoc_L (++)).
  rewrite (split_app_label [LF] LF_unbordered) by
    (done || apply one_line_no_LF, json_dumps_one_line).
  by rewrite IH.
Qed.

Lemma ends_line_app s t : t ≠ [] → ends_line t → ends_line (s ++ t).
Proof.
  intros Ht. unfold ends_line.
  destruct (exists_last Ht) as (t' & x & ->).
  by rewrite (assoc_L (++)), !last_snoc.
Qed.

Lemma ends_line_records pairs :
  ends_line (pairs ≫= λ p, json_dumps p ++ [LF]).
Proof.
  induction pairs as [|p pairs IH] using rev_ind; [done|].
  rewrite bind_app, bind_cons. cbn [mbind list_bind].
  rewrite app_nil_r, !(assoc_L (++)).
  unfold ends_line. rewrite last_snoc. by left.
Qed.

(** X10: when [save_to_jsonl] returns for a name under which there was no
    file, the file is there afterwards, also for an empty list of records;
    it holds one line per record and the status line reports that number
    as the total. *)
Theorem save_to_jsonl_creates (pairs : list pair) (filename : str)
    (w w' : world) :
  files w !! filename = None →
  save_to_jsonl pairs filename w = (Returns (), w') →
  ∃ new,
    files w' !! filename = Some new
    ∧ new = (pairs ≫= λ p, json_dumps p ++ [LF])
    ∧ count_lines new = length pairs
    ∧ last (stdout w')
      = Some (status_line (length pairs) filename (length pairs)).
Proof.
  intros Hnone. rewrite save_to_jsonl_unfold, Hnone. cbn zeta.
  intros [= <-]. eexists.
  split; [cbn [files set_stdout set_files]; apply lookup_insert_eq|].
  cbn [default app]. split; [done|]. split; [apply count_lines_records|].
  cbn [stdout set_stdout]. apply last_snoc.
Qed.

Lemma save_to_jsonl_creates_witness :
  ∃ new,
    files (snd (save_to_jsonl [] "dataset.jsonl" (init "example.com" ∅)))
      !! ("dataset.jsonl" : str) = Some new
    ∧ new = []
    ∧ count_lines new = 0
    ∧ last (stdout (snd (save_to_jsonl [] "dataset.jsonl"
                           (init "example.com" ∅))))
      = Some (status_line 0 "dataset.jsonl" 0).
Proof.
  apply (save_to_jsonl_creates [] "dataset.jsonl" (init "example.com" ∅)
           (snd (save_to_jsonl [] "dataset.jsonl" (init "example.com" ∅))));
    reflexivity.
Defined.

(** X12: the text that [save_to_jsonl] appends is one line per record, in
    order: cut at the line feeds, it gives the dumped records back, followed
    by the empty piece after the last line feed; a line feed inside a field
    never breaks a line. *)
Theorem save_to_jsonl_lines (pairs : list pair) (filename : str) (w : world) :
  ∃ w' appended,
    save_to_jsonl pairs filename w = (Returns (), w')
    ∧ files w' !! filename
      = Some (default [] (files w !! filename) ++ appended)
    ∧ Py.split [LF] appended = (json_dumps <$> pairs) ++ [[]].
Proof.
  rewrite save_to_jsonl_unfold. cbn zeta.
  do 2 eexists. split; [reflexivity|].
  cbn [files set_stdout set_files].
  split; [apply lookup_insert_eq|apply split_records].
Qed.

(** X13: saving two lists one after the other leaves the files as saving
    their concatenation at once does. *)
Theorem save_to_jsonl_twice (pairs1 pairs2 : list pair) (filename : str)
    (w : world) :
  files (snd (save_to_jsonl pairs2 filename
                (snd (save_to_jsonl pairs1 filename w))))
  = files (snd (save_to_jsonl (pairs1 ++ pairs2) filename w)).
Proof.
  rewrite !save_to_jsonl_unfold. cbn zeta. cbn [snd files set_stdout set_files].
  rewrite lookup_insert_eq, insert_insert_eq. cbn [default].
  by rewrite bind_app, (assoc_L (++)).
Qed.

(** X14: after [save_to_jsonl] the file ends with a line terminator
    whenever a record was appended or the file ended with one before; a
    file that is well formed stays so. *)
Theorem save_to_jsonl_ends_line (pairs : list pair) (filename : str)
    (w : world) :
  pairs ≠ [] ∨ ends_line (default [] (files w !! filename)) →
  ∃ new,
    files (snd (save_to_jsonl pairs filename w)) !! filename = Some new
    ∧ ends_line new.
Proof.
  intros H. rewrite save_to_jsonl_unfold. cbn zeta.
  cbn [snd files set_stdout set_files].
  eexists. split; [apply lookup_insert_eq|].
  destruct pairs as [|p pairs].
  - destruct H as [|H]; [done|]. cbn [mbind list_bind]. by rewrite app_nil_r.
  - apply ends_line_app; [|apply ends_line_records].
    rewrite bind_cons. destruct (json_dumps_head p) as [rest ->]. done.
Qed.

Lemma save_to_jsonl_ends_line_witness :
  ∃ new,
    files (snd (save_to_jsonl
                  [ {| instruction := "Cook"; input := "pasta";
                       output := "Boil." |} ]
                  "dataset.jsonl"
                  (init "example.com" {[ ("dataset.jsonl" : str) := ("{}" : str) ]})))
      !! ("dataset.jsonl" : str) = Some new
    ∧ ends_line new.
Proof. apply save_to_jsonl_ends_line. left. discriminate. Defined.

(** Reading undoes escaping, one character at a time. *)
Lemma json_read_escape c t :
  json_read_str (json_escape_char c ++ t) = read_more c (json_read_str t).
Proof. destruct c as [[] [] [] [] [] [] [] []]; reflexivity. Qed.

Lemma json_read_body s t :
  json_read_str ((s ≫= json_escape_char) ++ DQUOTE :: t) = Some (s, t).
Proof.
  induction s as [|c s IH]; [done|].
  by rewrite bind_cons, <- (assoc_L (++)), json_read_escape, IH.
Qed.

(** A dumped string stops where its closing quote is: it can be told from
    the text that follows it. *)
Lemma json_dumps_str_inj_app s1 s2 t1 t2 :
  json_dumps_str s1 ++ t1 = json_dumps_str s2 ++ t2 → s1 = s2 ∧ t1 = t2.
Proof.
  unfold json_dumps_str. rewrite <- !(assoc_L (++)). cbn [app].
  intros [= H]. apply (f_equal json_read_str) in H.
  rewrite !json_read_body in H. by injection H.
Qed.

Lemma json_dumps_inj p1 p2 : json_dumps p1 = json_dumps p2 → p1 = p2.
Proof.
  destruct p1 as [i1 n1 o1], p2 as [i2 n2 o2]. unfold json_dumps.
  cbn [instruction input output].
  intros H. apply app_inv_head in H.
  apply json_dumps_str_inj_app in H as [_ H]. apply app_inv_head in H.
  apply json_dumps_str_inj_app in H as [-> H]. apply app_inv_head in H.
  apply json_dumps_str_inj_app in H as [_ H]. apply app_inv_head in H.
  apply json_dumps_str_inj_app in H as [-> H]. apply app_inv_head in H.
  apply json_dumps_str_inj_app in H as [_ H]. apply app_inv_head in H.
  apply json_dumps_str_inj_app in H as [-> H]. done.
Qed.

(** X15: for records whose fields hold code points below 256, the
    characters of this embedding, nothing is lost in writing: two lists of
    records that [save_to_jsonl] turns into the same content of a file are
    the same list.  (Above that range [json.dumps] is not one to one: it
    writes a character beyond U+FFFF as the pair of surrogates, which
    another string can hold as two characters.) *)
Theorem save_to_jsonl_lossless (pairs1 pairs2 : list pair) (filename : str)
    (w : world) (old : str) :
  files w !! filename = Some old →
  files (snd (save_to_jsonl pairs1 filename w)) !! filename
  = files (snd (save_to_jsonl pairs2 filename w)) !! filename →
  pairs1 = pairs2.
Proof.
  intros Hold. rewrite !save_to_jsonl_unfold, Hold. cbn zeta.
  cbn [snd files set_stdout set_files default].
  rewrite !lookup_insert_eq. intros H. apply (inj Some), app_inv_head in H.
  apply (f_equal (Py.split [LF])) in H. rewrite !split_records in H.
  apply app_inv_tail in H.
  revert pairs2 H. induction pairs1 as [|p1 ps1 IH]; intros [|p2 ps2] H;
    try done.
  rewrite !fmap_cons in H.
  pose proof (f_equal head H) as Hp. pose proof (f_equal tail H) as Hps.
  cbn [head tail] in Hp, Hps. apply (inj Some) in Hp.
  f_equal; [apply json_dumps_inj, Hp|apply IH, Hps].
Qed.

Lemma save_to_jsonl_lossless_witness :
  [ {| instruction := "Cook"; input := "pasta"; output := "Boil." |} ]
  = [ {| instruction := "Cook"; input := "pasta"; output := "Boil." |} ].
Proof.
  apply (save_to_jsonl_lossless _ _ "dataset.jsonl"
           (init "example.com" {[ ("dataset.jsonl" : str) := [] ]}) []);
    reflexivity.
Defined.

(** *** The directory that is created *)

Lemma drop_until_slash_none s :
  forallb (λ c, negb (is_slash c)) s = true → drop_until_slash s = [].
Proof.
  induction s as [|c s IH]; [done|]. cbn [forallb drop_until_slash].
  intros [Hc Hs]%andb_true_iff. apply negb_true_iff in Hc.
  rewrite Hc. by apply IH.
Qed.

Lemma dirname_no_slash name :
  forallb (λ c, negb (is_slash c)) name = true → dirname name = [].
Proof.
  intros Hname. unfold dirname.
  rewrite drop_until_slash_none; [done|].
  rewrite forallb_forall in *. intros c Hc. apply Hname.
  by apply list_elem_of_In, elem_of_reverse, list_elem_of_In.
Qed.

Lemma dirname_dir_name dir last_char name :
  is_slash last_char = false →
  forallb (λ c, negb (is_slash c)) name = true →
  dirname ((dir ++ [last_char]) ++ "/" ++ name) = dir ++ [last_char].
Proof.
  intros Hlast Hname. unfold dirname.
  assert (drop_until_slash (reverse ((dir ++ [last_char]) ++ "/" ++ name))
          = "/"%char :: last_char :: reverse dir) as ->.
  { rewrite !reverse_app. cbn [list_ascii_of_string]. rewrite !reverse_singleton.
    cbn [app]. rewrite <- (assoc_L (++)). cbn [app].
    generalize (last_char :: reverse dir) as tail.
    assert (forallb (λ c, negb (is_slash c)) (reverse name) = true) as Hrev.
    { rewrite forallb_forall in *. intros c Hc. apply Hname.
      by apply list_elem_of_In, elem_of_reverse, list_elem_of_In. }
    induction (reverse name) as [|c s IH]; intros tail; [done|].
    cbn [forallb] in Hrev. apply andb_true_iff in Hrev as [Hc Hs].
    apply negb_true_iff in Hc. cbn [app drop_until_slash]. rewrite Hc.
    by apply IH. }
  rewrite reverse_cons, reverse_cons, reverse_involutive.
  assert (forallb is_slash ((dir ++ [last_char]) ++ ["/"%char]) = false) as ->.
  { rewrite !forallb_app. cbn [forallb]. rewrite Hlast.
    by rewrite andb_false_r. }
  rewrite reverse_app, reverse_app. rewrite !reverse_singleton.
  cbn [app drop_slashes]. change (is_slash "/") with true. cbn iota.
  rewrite Hlast. rewrite reverse_cons, reverse_involutive. done.
Qed.

(** X16: [save_to_jsonl] asks for exactly one directory to be created, and
    never for one with an empty name: for a file name without slash it is
    the current directory, and for [dir/name] it is [dir]. *)
Theorem save_to_jsonl_makedirs (pairs : list pair) (filename : str)
    (w : world) :
  ∃ d,
    makedirs_log (snd (save_to_jsonl pairs filename w))
    = makedirs_log w ++ [d]
    ∧ d ≠ []
    ∧ (forallb (λ c, negb (is_slash c)) filename = true → d = ".")
    ∧ (∀ dir last_char name,
         filename = (dir ++ [last_char]) ++ "/" ++ name →
         is_slash last_char = false →
         forallb (λ c, negb (is_slash c)) name = true →
         d = dir ++ [last_char]).
Proof.
  rewrite save_to_jsonl_unfold. cbn zeta.
  cbn [snd makedirs_log set_stdout set_files set_makedirs_log].
  eexists. split; [reflexivity|]. split; [|split].
  - by destruct (dirname filename).
  - intros Hname. by rewrite dirname_no_slash.
  - intros dir last_char name -> Hlast Hname.
    rewrite dirname_dir_name by done. by destruct dir.
Qed.

Lemma save_to_jsonl_makedirs_witness :
  makedirs_log (snd (save_to_jsonl [] "website_alpaca_dataset.jsonl"
                       (init "example.com" ∅)))
  = [ "." : str ]
  ∧ makedirs_log (snd (save_to_jsonl [] "out/data/set.jsonl"
                         (init "example.com" ∅)))
    = [ "out/data" : str ].
Proof.
  split.
  - destruct (save_to_jsonl_makedirs [] "website_alpaca_dataset.jsonl"
                (init "example.com" ∅)) as (d & Hlog & _ & Hdot & _).
    rewrite Hlog, Hdot; reflexivity.
  - destruct (save_to_jsonl_makedirs [] "out/data/set.jsonl"
                (init "example.com" ∅)) as (d & Hlog & _ & _ & Hdir).
    rewrite Hlog, (Hdir "out/dat" "a"%char "set.jsonl"); reflexivity.
Defined.

(** ** More about the orchestration loop *)

Section OrchestrationMore.

Variable requests_get : list str → str → get_result.
Variable http_error_msg : response → str.
Variable soup_hrefs : str → list str.
Variable soup_get_text : str → str.
Variable urljoin : str → str → str.
Variable chat_completions_create : list chat_request → chat_request → chat_result.

Local Abbreviation discover :=
  (find_recipe_links requests_get http_error_msg soup_hrefs urljoin).
Local Abbreviation scrape :=
  (scrape_website requests_get http_error_msg soup_get_text).
Local Abbreviation generate :=
  (generate_instruction_pairs chat_completions_create).
Local Abbreviation process :=
  (process_recipe requests_get http_error_msg soup_get_text
     chat_completions_create).

(** The text that [scrape_website] hands to the loop for an answer of the
    site: none for a failure. *)
Lemma scrape_website_effects w u :
  url w = Some u →
  ∃ t w',
    scrape w = (Returns t, w')
    ∧ t = match requests_get (http_log w) u with
          | GetRaises _ => None
          | GetReturns r =>
              if ((400 <=? status_code r) && (status_code r <? 600))%Z
              then None else Some (soup_get_text (text r))
          end
    ∧ http_log w' = http_log w ++ [u]
    ∧ chat_log w' = chat_log w
    ∧ files w' = files w
    ∧ makedirs_log w' = makedirs_log w
    ∧ slept w' = slept w
    ∧ visited_urls w' = visited_urls w
    ∧ base_url w' = base_url w.
Proof.
  intros Hu. rewrite (scrape_website_unfold _ _ _ _ _ Hu). cbn zeta.
  destruct (requests_get (http_log w) u) as [msg|r];
    [|destruct ((400 <=? status_code r) && (status_code r <? 600))%Z];
    do 2 eexists; repeat split; reflexivity.
Qed.

(** One round of the loop, by what the scraped text is. *)
Lemma process_recipe_effects n filename u w :
  let t := match requests_get (http_log w) u with
           | GetRaises _ => None
           | GetReturns r =>
               if ((400 <=? status_code r) && (status_code r <? 600))%Z
               then None else Some (soup_get_text (text r))
           end in
  ∃ w',
    process n filename u w = (Returns (), w')
    ∧ http_log w' = http_log w ++ [u]
    ∧ slept w' = (slept w + 2)%Z
    ∧ visited_urls w' = visited_urls w ∪ {[ u ]}
    ∧ base_url w' = base_url w
    ∧ match t with
      | Some ((_ :: _) as text_content) =>
          let pairs :=
            seq 0 (Z.to_nat n) ≫= λ i,
              yield (chat_completions_create
                       (chat_log w ++ replicate i (request_for text_content))
                       (request_for text_content)) in
          chat_log w'
          = chat_log w ++ replicate (Z.to_nat n) (request_for text_content)
          ∧ files w'
            = <[ filename := default [] (files w !! filename)
                             ++ (pairs ≫= λ p, json_dumps p ++ [LF]) ]>
                (files w)
      | _ =>
          chat_log w' = chat_log w ∧ files w' = files w
          ∧ makedirs_log w' = makedirs_log w
      end.
Proof.
  intros t. unfold process_recipe.
  unfold mbind at 1 2 3 4 5, M_bind at 1 2 3 4 5, print, modify at 1 2 3.
  cbn beta iota.
  set (w1 := set_visited_urls _ _).
  destruct (scrape_website_effects w1 u eq_refl)
    as (t' & w2 & -> & Ht & Hh & Hc & Hf & Hm & Hs & Hv & Hb).
  change (http_log w1) with (http_log w) in Ht, Hh. fold t in Ht. subst t'.
  destruct t as [[|c text_content]|].
  1,3: eexists; split; [reflexivity|];
       cbn [http_log slept visited_urls base_url chat_log files makedirs_log
            set_slept];
       rewrite Hh, Hs, Hv, Hb, Hc, Hf, Hm; repeat split; reflexivity.
  unfold mbind, M_bind, generate_instruction_pairs.
  destruct (attempts_effects chat_completions_create (Z.to_nat n)
              (c :: text_content) [] w2)
    as (w3 & -> & _ & Hc3 & Hh3 & Hf3 & Hm3 & Hs3 & Hv3 & Hb3).
  rewrite save_to_jsonl_unfold. cbn zeta. eexists. split; [reflexivity|].
  cbn [http_log slept visited_urls base_url chat_log files makedirs_log
       set_slept set_stdout set_files set_makedirs_log].
  rewrite Hh3, Hs3, Hf3, Hc3, Hv3, Hb3, Hh, Hs, Hf, Hc, Hv, Hb.
  rewrite app_nil_l. repeat split; reflexivity.
Qed.

(** What a round costs at most, and what it leaves alone. *)
Lemma process_recipe_bounds n filename u w :
  ∃ w',
    process n filename u w = (Returns (), w')
    ∧ http_log w' = http_log w ++ [u]
    ∧ slept w' = (slept w + 2)%Z
    ∧ base_url w' = base_url w
    ∧ length (chat_log w') ≤ length (chat_log w) + Z.to_nat n
    ∧ (∀ other, other ≠ filename → files w' !! other = files w !! other).
Proof.
  destruct (process_recipe_effects n filename u w)
    as (w' & Heq & Hh & Hs & _ & Hb & Hcase).
  exists w'. repeat split; try done.
  - destruct (requests_get (http_log w) u) as [msg|r];
      [|destruct ((400 <=? status_code r) && (status_code r <? 600))%Z;
        [|destruct (soup_get_text (text r))]].
    1-3: destruct Hcase as (-> & _); lia.
    destruct Hcase as [-> _]. rewrite length_app, length_replicate. lia.
  - intros other Hne.
    destruct (requests_get (http_log w) u) as [msg|r];
      [|destruct ((400 <=? status_code r) && (status_code r <? 600))%Z;
        [|destruct (soup_get_text (text r))]].
    1-3: by destruct Hcase as (_ & -> & _).
    destruct Hcase as [_ ->]. by apply lookup_insert_ne.
Qed.

Lemma for_each_process_recipe_bounds n filename links w :
  ∃ w',
    for_each links (process n filename) w = (Returns (), w')
    ∧ http_log w' = http_log w ++ links
    ∧ slept w' = (slept w + 2 * Z.of_nat (length links))%Z
    ∧ base_url w' = base_url w
    ∧ length (chat_log w') ≤ length (chat_log w) + Z.to_nat n * length links
    ∧ (∀ other, other ≠ filename → files w' !! other = files w !! other).
Proof.
  revert w. induction links as [|u links IH]; intros w.
  - exists w. cbn [for_each length]. rewrite app_nil_r.
    repeat split; (done || lia).
  - cbn [for_each]. unfold mbind, M_bind.
    destruct (process_recipe_bounds n filename u w)
      as (w1 & -> & Hh1 & Hs1 & Hb1 & Hc1 & Hf1).
    destruct (IH w1) as (w' & -> & Hh & Hs & Hb & Hc & Hf).
    exists w'. split; [done|]. repeat split.
    + rewrite Hh, Hh1, <- (assoc_L (++)). done.
    + rewrite Hs, Hs1. cbn [length]. lia.
    + congruence.
    + cbn [length]. lia.
    + intros other Hne. rewrite (Hf other Hne). by apply Hf1.
Qed.

End OrchestrationMore.

(** X17: when [requests.get] for the page of a link raises a
    [RequestException], or the response has a client or server error
    status, or the page gives an empty text, the round for that link sends
    no generation request, creates no directory and leaves every file as it
    is; the link is still requested once, marked as visited and followed by
    the two seconds of sleep, and the round returns. *)
Theorem process_recipe_skips
    (requests_get : list str → str → get_result)
    (http_error_msg : response → str) (soup_get_text : str → str)
    (chat_completions_create : list chat_request → chat_request → chat_result)
    (n : Z) (filename u : str) (w : world) :
  (∃ msg, requests_get (http_log w) u = GetRaises msg)
  ∨ (∃ r, requests_get (http_log w) u = GetReturns r
          ∧ ((400 ≤ status_code r < 600)%Z ∨ soup_get_text (text r) = [])) →
  ∃ w',
    process_recipe requests_get http_error_msg soup_get_text
      chat_completions_create n filename u w = (Returns (), w')
    ∧ chat_log w' = chat_log w
    ∧ files w' = files w
    ∧ makedirs_log w' = makedirs_log w
    ∧ http_log w' = http_log w ++ [u]
    ∧ visited_urls w' = visited_urls w ∪ {[ u ]}
    ∧ slept w' = (slept w + 2)%Z.
Proof.
  intros Hfetch.
  destruct (process_recipe_effects requests_get http_error_msg soup_get_text
              chat_completions_create n filename u w)
    as (w' & Heq & Hh & Hs & Hv & _ & Hcase).
  exists w'. split; [done|].
  assert (chat_log w' = chat_log w ∧ files w' = files w
          ∧ makedirs_log w' = makedirs_log w) as (Hc & Hf & Hm);
    [|by repeat split].
  destruct Hfetch as [[msg Hget]|(r & Hget & [Hst|Hempty])];
    rewrite Hget in Hcase.
  - done.
  - by assert (((400 <=? status_code r) && (status_code r <? 600))%Z = true)
      as Hbad by (apply andb_true_iff; split; lia); rewrite Hbad in Hcase.
  - rewrite Hempty in Hcase.
    by destruct ((400 <=? status_code r) && (status_code r <? 600))%Z.
Qed.

Lemma process_recipe_skips_witness :
  ∃ w',
    process_recipe (Example.serves "<html>") Example.error_msg (λ _, [])
      (Example.answers []) 5 "dataset.jsonl"
      "https://example.com/recipe/pasta" (init "example.com" ∅)
    = (Returns (), w')
    ∧ chat_log w' = []
    ∧ files w' = ∅
    ∧ makedirs_log w' = []
    ∧ http_log w' = [] ++ ["https://example.com/recipe/pasta" : str]
    ∧ visited_urls w' = ∅ ∪ {[ "https://example.com/recipe/pasta" : str ]}
    ∧ slept w' = (0 + 2)%Z.
Proof.
  apply (process_recipe_skips (Example.serves "<html>") Example.error_msg
           (λ _, []) (Example.answers []) 5 "dataset.jsonl"
           "https://example.com/recipe/pasta" (init "example.com" ∅)).
  right. eexists. split; [reflexivity|]. right. reflexivity.
Defined.

(** X18: when the page of a link gives a text that is not empty, the round
    sends its requests with that text and appends to the output file the
    records that the answers yield, all of them and in order. *)
Theorem process_recipe_writes
    (requests_get : list str → str → get_result)
    (http_error_msg : response → str) (soup_get_text : str → str)
    (chat_completions_create : list chat_request → chat_request → chat_result)
    (n : Z) (filename u : str) (w : world) (r : response) :
  requests_get (http_log w) u = GetReturns r →
  ¬ (400 ≤ status_code r < 600)%Z →
  soup_get_text (text r) ≠ [] →
  ∃ pairs w',
    process_recipe requests_get http_error_msg soup_get_text
      chat_completions_create n filename u w = (Returns (), w')
    ∧ pairs
      = (seq 0 (Z.to_nat n) ≫= λ i,
           yield (chat_completions_create
                    (chat_log w
                     ++ replicate i (request_for (soup_get_text (text r))))
                    (request_for (soup_get_text (text r)))))
    ∧ chat_log w'
      = chat_log w
        ++ replicate (Z.to_nat n) (request_for (soup_get_text (text r)))
    ∧ files w' !! filename
      = Some (default [] (files w !! filename)
              ++ (pairs ≫= λ p, json_dumps p ++ [LF])).
Proof.
  intros Hget Hst Htext.
  destruct (process_recipe_effects requests_get http_error_msg soup_get_text
              chat_completions_create n filename u w)
    as (w' & Heq & _ & _ & _ & _ & Hcase).
  rewrite Hget in Hcase.
  assert (((400 <=? status_code r) && (status_code r <? 600))%Z = false)
    as Hok by (apply andb_false_iff; lia).
  rewrite Hok in Hcase.
  destruct (soup_get_text (text r)) as [|c t] eqn:Ht; [done|].
  destruct Hcase as [Hc Hf].
  do 2 eexists. split; [exact Heq|]. split; [reflexivity|]. split; [done|].
  rewrite Hf. apply lookup_insert_eq.
Qed.

Lemma process_recipe_writes_witness :
  ∃ pairs w',
    process_recipe (Example.serves "Soup of the day") Example.error_msg
      (λ t, t)
      (Example.answers
         [ChatReturns (Some ("INSTRUCTION: Cook INPUT: soup OUTPUT: Stir." : str))])
      1 "dataset.jsonl" "https://example.com/recipes/soup"
      (init "example.com" ∅)
    = (Returns (), w')
    ∧ pairs = [ {| instruction := "Cook"; input := "soup"; output := "Stir." |} ]
    ∧ files w' !! ("dataset.jsonl" : str)
      = Some (pairs ≫= λ p, json_dumps p ++ [LF]).
Proof.
  destruct (process_recipe_writes (Example.serves "Soup of the day")
              Example.error_msg (λ t, t)
              (Example.answers
                 [ChatReturns (Some ("INSTRUCTION: Cook INPUT: soup OUTPUT: Stir." : str))])
              1 "dataset.jsonl" "https://example.com/recipes/soup"
              (init "example.com" ∅)
              {| status_code := 200; text := "Soup of the day" |})
    as (pairs & w' & Heq & Hpairs & _ & Hfile).
  - reflexivity.
  - simpl. lia.
  - simpl. discriminate.
  - exists pairs, w'. split; [exact Heq|]. split; [|exact Hfile].
    rewrite Hpairs. vm_compute. reflexivity.
Defined.

(** All that discovery does to the world is one request and, on failure,
    one printed line. *)
Lemma find_recipe_links_effects
    (requests_get : list str → str → get_result)
    (http_error_msg : response → str) (soup_hrefs : str → list str)
    (urljoin : str → str → str) (u : str) (max_links : Z) (w : world) :
  ∃ links w',
    find_recipe_links requests_get http_error_msg soup_hrefs urljoin
      u max_links w = (Returns links, w')
    ∧ http_log w' = http_log w ++ [u]
    ∧ chat_log w' = chat_log w
    ∧ files w' = files w
    ∧ slept w' = slept w
    ∧ base_url w' = base_url w
    ∧ visited_urls w' = visited_urls w
    ∧ (Z.of_nat (length links) ≤ Z.max 1 max_links)%Z.
Proof.
  rewrite find_recipe_links_unfold. cbn zeta.
  destruct (requests_get (http_log w) u) as [msg|r];
    [|destruct ((400 <=? status_code r) && (status_code r <? 600))%Z];
    do 2 eexists; (split; [reflexivity|]);
    (repeat split; try reflexivity); [simpl; lia..|].
  rewrite size_elements. apply scan_links_size_max. rewrite size_empty. lia.
Qed.

(** The effects of a whole run. *)
Lemma process_multiple_recipes_whole_run
    (requests_get : list str → str → get_result)
    (http_error_msg : response → str) (soup_hrefs : str → list str)
    (soup_get_text : str → str) (urljoin : str → str → str)
    (chat_completions_create : list chat_request → chat_request → chat_result)
    (n max_recipes : Z) (filename : str) (w : world) :
  ∃ links w1 w',
    find_recipe_links requests_get http_error_msg soup_hrefs urljoin
      (base_url w) max_recipes w = (Returns links, w1)
    ∧ process_multiple_recipes requests_get http_error_msg soup_hrefs
        soup_get_text urljoin chat_completions_create
        n max_recipes filename w = (Returns (), w')
    ∧ http_log w' = http_log w ++ base_url w :: links
    ∧ slept w' = (slept w + 2 * Z.of_nat (length links))%Z
    ∧ length (chat_log w') ≤ length (chat_log w) + Z.to_nat n * length links
    ∧ (Z.of_nat (length links) ≤ Z.max 1 max_recipes)%Z
    ∧ (∀ other, other ≠ filename → files w' !! other = files w !! other).
Proof.
  unfold process_multiple_recipes, mbind, M_bind, get_world.
  destruct (find_recipe_links_effects requests_get http_error_msg soup_hrefs
              urljoin (base_url w) max_recipes w)
    as (links & w1 & Heq & Hh1 & Hc1 & Hf1 & Hs1 & _ & _ & Hlen).
  destruct (for_each_process_recipe_bounds requests_get http_error_msg
              soup_get_text chat_completions_create n filename links w1)
    as (w' & Heq' & Hh & Hs & _ & Hc & Hf).
  exists links, w1, w'. rewrite Heq, Heq'. repeat split; try done.
  - rewrite Hh, Hh1, <- (assoc_L (++)). done.
  - by rewrite Hs, Hs1.
  - by rewrite <- Hc1.
  - intros other Hne. rewrite (Hf other Hne). by rewrite Hf1.
Qed.


(** X19: when a run of [process_multiple_recipes] returns, it has requested
    the base URL once and then each discovered link once, in the order of
    the list and without retry, slept two seconds per link, sent at most
    the requested number of generation requests per link, and processed no
    more links than the larger of one and the maximum. *)
Theorem process_multiple_recipes_effects
    (requests_get : list str → str → get_result)
    (http_error_msg : response → str) (soup_hrefs : str → list str)
    (soup_get_text : str → str) (urljoin : str → str → str)
    (chat_completions_create : list chat_request → chat_request → chat_result)
    (n max_recipes : Z) (filename : str) (w : world)
    (links : list str) (w1 w' : world) :
  find_recipe_links requests_get http_error_msg soup_hrefs urljoin
    (base_url w) max_recipes w = (Returns links, w1) →
  process_multiple_recipes requests_get http_error_msg soup_hrefs
    soup_get_text urljoin chat_completions_create
    n max_recipes filename w = (Returns (), w') →
  http_log w' = http_log w ++ base_url w :: links
  ∧ slept w' = (slept w + 2 * Z.of_nat (length links))%Z
  ∧ length (chat_log w') ≤ length (chat_log w) + Z.to_nat n * length links
  ∧ (Z.of_nat (length links) ≤ Z.max 1 max_recipes)%Z.
Proof.
  intros Hlinks Hrun.
  destruct (process_multiple_recipes_whole_run requests_get http_error_msg
              soup_hrefs soup_get_text urljoin chat_completions_create
              n max_recipes filename w)
    as (links' & w1' & w'' & Hlinks' & Hrun' & Hh & Hs & Hc & Hlen & _).
  rewrite Hlinks in Hlinks'. rewrite Hrun in Hrun'.
  injection Hlinks' as <- <-. injection Hrun' as <-. done.
Qed.

Lemma process_multiple_recipes_effects_witness :
  ∃ w',
    process_multiple_recipes (Example.serves "Soup of the day")
      Example.error_msg (Example.anchors ["/recipes/soup" : str]) (λ t, t)
      Example.join_path (Example.answers []) 1 10 "dataset.jsonl"
      (init "https://example.com" ∅) = (Returns (), w')
    ∧ http_log w'
      = [] ++ [ "https://example.com" : str;
                "https://example.com/recipes/soup" : str ]
    ∧ slept w' = (0 + 2 * Z.of_nat 1)%Z.
Proof.
  destruct (process_multiple_recipes (Example.serves "Soup of the day")
              Example.error_msg (Example.anchors ["/recipes/soup" : str])
              (λ t, t) Example.join_path (Example.answers []) 1 10
              "dataset.jsonl" (init "https://example.com" ∅))
    as [o w'] eqn:Hrun.
  assert (o = Returns ()) as ->.
  { apply (f_equal fst) in Hrun. vm_compute in Hrun. congruence. }
  exists w'. split; [reflexivity|].
  destruct (process_multiple_recipes_effects
              (Example.serves "Soup of the day") Example.error_msg
              (Example.anchors ["/recipes/soup" : str]) (λ t, t)
              Example.join_path (Example.answers []) 1 10 "dataset.jsonl"
              (init "https://example.com" ∅)
              ["https://example.com/recipes/soup" : str]
              (set_http_log ["https://example.com" : str]
                 (init "https://example.com" ∅))
              w') as (Hh & Hs & _).
  - vm_compute. reflexivity.
  - exact Hrun.
  - split; [exact Hh|exact Hs].
Defined.

(** X20: when [requests.get] for the base page raises a
    [RequestException], or the response has a client or server error
    status, [process_multiple_recipes] stops there and returns: one
    request, one printed line, and nothing processed, generated, written,
    visited or slept. *)
Theorem process_multiple_recipes_discovery_failure
    (requests_get : list str → str → get_result)
    (http_error_msg : response → str) (soup_hrefs : str → list str)
    (soup_get_text : str → str) (urljoin : str → str → str)
    (chat_completions_create : list chat_request → chat_request → chat_result)
    (n max_recipes : Z) (filename : str) (w : world) :
  (∃ msg, requests_get (http_log w) (base_url w) = GetRaises msg)
  ∨ (∃ r, requests_get (http_log w) (base_url w) = GetReturns r
          ∧ (400 ≤ status_code r < 600)%Z) →
  ∃ w',
    process_multiple_recipes requests_get http_error_msg soup_hrefs
      soup_get_text urljoin chat_completions_create
      n max_recipes filename w = (Returns (), w')
    ∧ http_log w' = http_log w ++ [base_url w]
    ∧ length (stdout w') = S (length (stdout w))
    ∧ chat_log w' = chat_log w
    ∧ files w' = files w
    ∧ makedirs_log w' = makedirs_log w
    ∧ visited_urls w' = visited_urls w
    ∧ slept w' = slept w.
Proof.
  intros Hfail.
  unfold process_multiple_recipes, mbind, M_bind, get_world.
  rewrite find_recipe_links_unfold. cbn zeta.
  destruct Hfail as [[msg ->]|(r & -> & Hst)].
  - eexists. cbn [for_each]. split; [reflexivity|].
    cbn. rewrite length_app. cbn [length]. repeat split; (done || lia).
  - assert (((400 <=? status_code r) && (status_code r <? 600))%Z = true) as ->
      by (apply andb_true_iff; split; lia).
    eexists. cbn [for_each]. split; [reflexivity|].
    cbn. rewrite length_app. cbn [length]. repeat split; (done || lia).
Qed.

Lemma process_multiple_recipes_discovery_failure_witness :
  ∃ w',
    process_multiple_recipes Example.unreachable Example.error_msg
      (Example.anchors ["/recipe/pasta" : str]) (λ t, t) Example.join_path
      (Example.answers []) 5 10 "dataset.jsonl"
      (init "https://example.com" ∅) = (Returns (), w')
    ∧ http_log w' = [] ++ ["https://example.com" : str]
    ∧ length (stdout w') = 1
    ∧ chat_log w' = []
    ∧ files w' = ∅
    ∧ makedirs_log w' = []
    ∧ visited_urls w' = ∅
    ∧ slept w' = 0%Z.
Proof.
  apply (process_multiple_recipes_discovery_failure Example.unreachable
           Example.error_msg (Example.anchors ["/recipe/pasta" : str])
           (λ t, t) Example.join_path (Example.answers []) 5 10
           "dataset.jsonl" (init "https://example.com" ∅)).
  left. eexists. reflexivity.
Defined.

(** X21: [main] raises its [ValueError] when the credential is not set or
    is the empty string, before anything else happens; with a credential it
    is the run of [process_multiple_recipes] with 5 pairs per recipe, at
    most 10 recipes and the file [website_alpaca_dataset.jsonl], on a fresh
    scraper for the fixed base URL; when that run returns, it has made at
    most 11 HTTP requests, the first one for the base URL, at most 50
    generation requests, and has slept at most 20 seconds. *)
Theorem main_spec
    (requests_get : list str → str → get_result)
    (http_error_msg : response → str) (soup_hrefs : str → list str)
    (soup_get_text : str → str) (urljoin : str → str → str)
    (chat_completions_create : list chat_request → chat_request → chat_result)
    (getenv : str → option str) (fs : gmap str str) :
  (getenv "OPENAI_API_KEY" = None ∨ getenv "OPENAI_API_KEY" = Some [] →
   main requests_get http_error_msg soup_hrefs soup_get_text urljoin
     chat_completions_create getenv fs
   = MainValueError "Please set the OPENAI_API_KEY environment variable")
  ∧ (∀ key, getenv "OPENAI_API_KEY" = Some key → key ≠ [] →
       main requests_get http_error_msg soup_hrefs soup_get_text urljoin
         chat_completions_create getenv fs
       = MainRan (process_multiple_recipes requests_get http_error_msg
                    soup_hrefs soup_get_text urljoin chat_completions_create
                    5 10 "website_alpaca_dataset.jsonl"
                    (init "https://www.bbcgoodfood.com/recipes/carbonara-arancini"
                       fs))
       ∧ ∀ w',
           main requests_get http_error_msg soup_hrefs soup_get_text urljoin
             chat_completions_create getenv fs = MainRan (Returns (), w') →
           head (http_log w')
           = Some ("https://www.bbcgoodfood.com/recipes/carbonara-arancini"
                   : str)
           ∧ length (http_log w') ≤ 11
           ∧ length (chat_log w') ≤ 50
           ∧ (slept w' ≤ 20)%Z).
Proof.
  split.
  - unfold main. by intros [-> | ->].
  - intros key Hkey Hne. unfold main. rewrite Hkey.
    destruct key as [|c key]; [done|]. split; [done|].
    intros w' Hmain.
    pose proof (f_equal (λ m, match m with
                              | MainRan run => run
                              | MainValueError _ => (Returns (), w')
                              end) Hmain) as Hrun.
    cbn beta iota in Hrun.
    destruct (process_multiple_recipes_whole_run requests_get http_error_msg
                soup_hrefs soup_get_text urljoin chat_completions_create
                5 10 "website_alpaca_dataset.jsonl"
                (init "https://www.bbcgoodfood.com/recipes/carbonara-arancini"
                   fs))
      as (links & w1 & w'' & _ & Hrun' & Hh & Hs & Hc & Hlen & _).
    rewrite Hrun in Hrun'. injection Hrun' as <-.
    cbn [http_log chat_log slept files base_url init] in Hh, Hs, Hc.
    rewrite Hh, Hs.
    cbn [app head length] in Hc |- *. change (Z.to_nat 5) with 5 in Hc.
    split; [done|]. split; [lia|]. split; lia.
Qed.

Lemma main_spec_witness :
  main (Example.serves "<html>") Example.error_msg (Example.anchors [])
    (λ t, t) Example.join_path (Example.answers []) (λ _, Some []) ∅
  = MainValueError "Please set the OPENAI_API_KEY environment variable"
  ∧ length
      (http_log
         (set_http_log
            ["https://www.bbcgoodfood.com/recipes/carbonara-arancini" : str]
            (init "https://www.bbcgoodfood.com/recipes/carbonara-arancini" ∅)))
    ≤ 11.
Proof.
  split.
  - apply (proj1 (main_spec _ _ _ _ _ _ (λ _, Some []) ∅)). right. reflexivity.
  - destruct (proj2 (main_spec (Example.serves "<html>") Example.error_msg
                       (Example.anchors []) (λ t, t) Example.join_path
                       (Example.answers []) (λ _, Some ("sk-test" : str)) ∅)
                "sk-test" eq_refl) as [_ Hrun].
    + discriminate.
    + apply (Hrun
               (set_http_log
                  ["https://www.bbcgoodfood.com/recipes/carbonara-arancini" : str]
                  (init "https://www.bbcgoodfood.com/recipes/carbonara-arancini"
                     ∅))).
      vm_compute. reflexivity.
Defined.
